(** * A shallow embedding of [sudoku.cpp] and the properties of its solver.

    The C++ program keeps a board of 81 cells.  Every cell carries the digit
    assigned to it (0 when empty) and a bit mask of the digits that may still
    be assigned.  [Board::assign] writes a digit and clears its bit in the
    row, the column and the 3x3 box of the cell; [Board::find] enumerates all
    completions by copying the board at each branch; [Board::print] renders a
    board; [main] reads the puzzle from the standard input.

    Integers of the program ([int], [unsigned]) are modelled by [Z]; the
    conversion to [unsigned] is written [to_unsigned].  Arrays are lists, and
    the boards handled by the program have exactly [num_cells] cells. *)

From Stdlib Require Import String Ascii DecimalString.
From Stdlib Require Import ZArith List Bool Lia Sorted.
Import ListNotations.
Local Open Scope Z_scope.

(** ** Machine integers *)

(** Conversion of an [int] to [unsigned] (32 bits). *)
Definition to_unsigned (z : Z) : Z := z mod 2 ^ 32.

Definition INT_MAX : Z := 2 ^ 31 - 1.

(** The values [lo; lo+1; ...; lo+n-1] taken by the counter of a counting
    loop, and the case [for (int i = 0; i < n; ++i)]. *)
Definition range (lo : Z) (n : nat) : list Z := map (fun i => lo + Z.of_nat i) (seq 0 n).

Definition upto (n : nat) : list Z := range 0 n.

(** ** struct Cell *)

Record Cell : Type := mkCell {
  assigned_ : Z;     (* the digit 1-9 assigned to this cell or 0 if unassigned *)
  assignable_ : Z    (* bits 1-9 indicating which digit could be assigned *)
}.

(** [bool assignable() const] *)
Definition assignable (x : Cell) : bool :=
  negb (assignable_ x =? 0).

(** The assertion [dig >= 1 && dig <= 9] of the member functions. *)
Definition dig_assert (dig : Z) : bool := (1 <=? dig) && (dig <=? 9).

(** [bool assignable(int dig) const]: [assignable_ & (1 << dig)], the [int]
    [1 << dig] being converted to [unsigned].  The assertion keeps [dig]
    where the shift is defined. *)
Definition assignable_dig (x : Cell) (dig : Z) : bool :=
  negb (Z.land (assignable_ x) (to_unsigned (Z.shiftl 1 dig)) =? 0).

(** [void cant_assign(int dig)]: [assignable_ &= ~(1 << dig)].  The cell is
    not asked whether it is assigned. *)
Definition cant_assign (dig : Z) (x : Cell) : Cell :=
  {| assigned_ := assigned_ x;
     assignable_ := Z.land (assignable_ x) (to_unsigned (Z.lnot (Z.shiftl 1 dig))) |}.

(** The constructor [Cell()]. *)
Definition Cell_init : Cell :=
  {| assigned_ := 0;
     assignable_ :=
       Z.lor (Z.shiftl 1 9) (Z.lor (Z.shiftl 1 8) (Z.lor (Z.shiftl 1 7)
       (Z.lor (Z.shiftl 1 6) (Z.lor (Z.shiftl 1 5) (Z.lor (Z.shiftl 1 4)
       (Z.lor (Z.shiftl 1 3) (Z.lor (Z.shiftl 1 2) (Z.shiftl 1 1)))))))) |}.

(** ** struct Board *)

Definition num_cells : Z := 9 * 9.

(** [Cell cells[num_cells]] *)
Definition Board : Type := list Cell.

(** The default constructor of [Board]: 81 default cells. *)
Definition Board_init : Board := repeat Cell_init (Z.to_nat num_cells).

(** The assertion of [cell(int pos)]. *)
Definition pos_assert (pos : Z) : bool := (0 <=? pos) && (pos <? num_cells).

(** Reading [cells[pos]].  The program only reads inside the array (the
    assertion of [cell]); outside, the model answers a default cell. *)
Definition cell (b : Board) (pos : Z) : Cell :=
  if 0 <=? pos then nth (Z.to_nat pos) b Cell_init else Cell_init.

(** Reading [cell(row, col)], that is [cells[row * 9 + col]]. *)
Definition cell_rc (b : Board) (row col : Z) : Cell := cell b (row * 9 + col).

Fixpoint modify_nth (n : nat) (f : Cell -> Cell) (l : list Cell) : list Cell :=
  match l with
  | [] => []
  | x :: l' =>
      match n with
      | O => f x :: l'
      | S n' => x :: modify_nth n' f l'
      end
  end.

(** Updating [cells[pos]] in place through the reference returned by
    [cell(pos)].  Outside the array the model leaves the board as it is. *)
Definition modify (b : Board) (pos : Z) (f : Cell -> Cell) : Board :=
  if 0 <=? pos then modify_nth (Z.to_nat pos) f b else b.

Definition set_assigned (dig : Z) (x : Cell) : Cell :=
  {| assigned_ := dig; assignable_ := assignable_ x |}.

(** [void Board::assign(int pos, int dig)].  [/] and [%] of C++ truncate
    towards zero; [cell(r, c)] is [cells[r * 9 + c]].  The three loops run
    over the whole column, the whole row and the whole box of [pos], the cell
    [pos] included. *)
Definition assign (b : Board) (pos dig : Z) : Board :=
  let row := Z.quot pos 9 in
  let col := Z.rem pos 9 in
  let b := modify b pos (set_assigned dig) in
  let b := fold_left (fun b r => modify b (r * 9 + col) (cant_assign dig)) (upto 9) b in
  let b := fold_left (fun b c => modify b (row * 9 + c) (cant_assign dig)) (upto 9) b in
  let rb := row - Z.rem row 3 in
  let cb := col - Z.rem col 3 in
  fold_left
    (fun b r =>
       fold_left
         (fun b c => modify b ((rb + r) * 9 + (cb + c)) (cant_assign dig))
         (upto 3) b)
    (upto 3) b.

(** The assertions at the head of [assign]. *)
Definition assign_assert (pos dig : Z) : bool := pos_assert pos && dig_assert dig.

(** The loop [for (int dig = 1; dig <= 9; ++dig)] of [find] over the digits
    [digs]; [x] is the cell under the scan and [try dig] stands for the body
    of the loop: copy the board into [next], [next.assign(pos, dig)], then
    [next.find(pos)]. *)
Fixpoint branches (x : Cell) (try : Z -> option (list Board)) (digs : list Z)
  : option (list Board) :=
  match digs with
  | [] => Some []
  | dig :: rest =>
      if assignable_dig x dig then
        match try dig with
        | Some out1 =>
            match branches x try rest with
            | Some out2 => Some (out1 ++ out2)
            | None => None
            end
        | None => None
        end
      else branches x try rest
  end.

(** [void Board::find(int pos) const].  The result lists the emissions: the
    boards handed to [print], in the order of the calls.  One unit of fuel is
    spent per iteration of the scanning loop and per recursive call; [None]
    means that the fuel ran out. *)
Fixpoint find (fuel : nat) (b : Board) (pos : Z) : option (list Board) :=
  match fuel with
  | O => None
  | S fuel' =>
      if pos =? num_cells then Some [b]
      else if assigned_ (cell b pos) =? 0 then
        let x := cell b pos in
        if negb (assignable x) then Some []
        else branches x (fun dig => find fuel' (assign b pos dig) pos) (range 1 9)
      else find fuel' b (pos + 1)
  end.

(** Fuel that is enough for [find] from position 0 (lemma [find_total]). *)
Definition find_fuel : nat := 164.

(** ** Board::print *)

(** [cout << n] for an [int]: its decimal writing. *)
Definition string_of_int (n : Z) : string := NilZero.string_of_int (Z.to_int n).

Definition newline : string := String (ascii_of_nat 10) EmptyString.

(** The body of the inner loop of [print], appending to the stream [out]. *)
Definition print_cell (b : Board) (r : Z) (out : string) (c : Z) : string :=
  let x := cell_rc b r c in
  let out := if negb (assigned_ x =? 0) then (out ++ string_of_int (assigned_ x))%string
             else (out ++ "_")%string in
  if (c =? 2) || (c =? 5) then (out ++ " ")%string else out.

(** [void Board::print() const], appending to the stream [out]. *)
Definition print_to (b : Board) (out : string) : string :=
  let out :=
    fold_left
      (fun out r => (fold_left (print_cell b r) (upto 9) out ++ newline)%string)
      (upto 9) out in
  (out ++ newline)%string.

Definition print (b : Board) : string := print_to b EmptyString.

(** What the program writes when [find] emits the boards [out]. *)
Definition printed (out : list Board) : string :=
  fold_left (fun s b => print_to b s) out EmptyString.

(** ** main *)

(** How a run of the program can end other than by returning. *)
Inductive result (A : Type) : Type :=
| Ok (a : A)
| AssertionFailure      (* an [assert] failed, in a build without NDEBUG *)
| Undefined.            (* signed overflow of [pos]: no defined behaviour *)
Arguments Ok {A} a.
Arguments AssertionFailure {A}.
Arguments Undefined {A}.

Definition bind {A B : Type} (r : result A) (k : A -> result B) : result B :=
  match r with
  | Ok a => k a
  | AssertionFailure => AssertionFailure
  | Undefined => Undefined
  end.

Notation "'let*' x ':=' r 'in' k" := (bind r (fun x => k))
  (at level 10, x name, r at level 100, k at level 200).

(** The state of the reading loop of [main]: the board [b], the counter
    [pos], and (as a ghost) the calls of [assign] issued so far. *)
Record reader : Type := mkReader {
  rd_board : Board;
  rd_pos : Z;
  rd_calls : list (Z * Z)
}.

(** [++pos] on an [int]. *)
Definition incr_pos (s : reader) : result reader :=
  if rd_pos s =? INT_MAX then Undefined
  else Ok {| rd_board := rd_board s; rd_pos := rd_pos s + 1; rd_calls := rd_calls s |}.

(** [b.assign(pos, dig)] from [main]; [ndebug] tells whether the program was
    compiled with -DNDEBUG, which removes the assertions.  The header of
    [sudoku.cpp] builds the program both ways. *)
Definition call_assign (ndebug : bool) (s : reader) (dig : Z) : result reader :=
  if negb ndebug && negb (assign_assert (rd_pos s) dig) then AssertionFailure
  else Ok {| rd_board := assign (rd_board s) (rd_pos s) dig;
             rd_pos := rd_pos s;
             rd_calls := rd_calls s ++ [(rd_pos s, dig)] |}.

(** [isdigit(c)] in the "C" locale. *)
Definition isdigit (c : Z) : bool := (48 <=? c) && (c <=? 57).

(** The value returned by [getchar()] for a character of the stream. *)
Definition char_code (a : ascii) : Z := Z.of_N (N_of_ascii a).

(** The body of the loop [while ((c = getchar()) != EOF)]. *)
Definition read_char (ndebug : bool) (s : reader) (c : Z) : result reader :=
  if c =? 95 (* '_' *) then incr_pos s
  else if isdigit c then
    let* s' := (if rd_pos s <? num_cells then call_assign ndebug s (c - 48 (* '0' *))
                else Ok s) in
    incr_pos s'
  else Ok s.

Fixpoint read_loop (ndebug : bool) (s : reader) (input : string) : result reader :=
  match input with
  | EmptyString => Ok s
  | String a rest =>
      let* s' := read_char ndebug s (char_code a) in
      read_loop ndebug s' rest
  end.

Definition reader_init : reader :=
  {| rd_board := Board_init; rd_pos := 0; rd_calls := [] |}.

(** How [main] ends when it does not stop on an assertion. *)
Inductive exit : Type :=
| Returned (out : list Board)   (* [b.find(0)] ran and emitted [out] *)
| Thrown (pos : Z).             (* [std::runtime_error("Invalid board: " + pos)] *)

(** [int main()] on the standard input [input].  With [find_fuel] the search
    returns on every board (lemma [find_total]), so the last case of the
    match does not arise. *)
Definition main (ndebug : bool) (input : string) : result exit :=
  let* s := read_loop ndebug reader_init input in
  if negb (rd_pos s =? num_cells) then Ok (Thrown (rd_pos s))
  else
    match find find_fuel (rd_board s) 0 with
    | Some out => Ok (Returned out)
    | None => Undefined
    end.

(** * Vocabulary of the properties *)

(** [pos] is the index of a cell of [b]. *)
Definition in_board (b : Board) (pos : Z) : bool :=
  (0 <=? pos) && (pos <? Z.of_nat (length b)).

(** Applying [f] to the cells at the indices [l], one after the other. *)
Definition modify_all (f : Cell -> Cell) (l : list Z) (b : Board) : Board :=
  fold_left (fun b i => modify b i f) l b.

(** The candidate set of a cell: the digits whose bit is set. *)
Definition candidates (x : Cell) : list Z := filter (assignable_dig x) (range 1 9).

Definition row_of (pos : Z) : Z := Z.quot pos 9.
Definition col_of (pos : Z) : Z := Z.rem pos 9.

(** The indices visited by the three loops of [assign], in order. *)
Definition touched (pos : Z) : list Z :=
  let row := Z.quot pos 9 in
  let col := Z.rem pos 9 in
  let rb := row - Z.rem row 3 in
  let cb := col - Z.rem col 3 in
  map (fun r => r * 9 + col) (upto 9) ++
  map (fun c => row * 9 + c) (upto 9) ++
  flat_map (fun r => map (fun c => (rb + r) * 9 + (cb + c)) (upto 3)) (upto 3).

(** Two positions share a row, a column or a 3x3 box (a position does so
    with itself). *)
Definition same_row (p q : Z) : bool := row_of p =? row_of q.
Definition same_col (p q : Z) : bool := col_of p =? col_of q.
Definition same_box (p q : Z) : bool :=
  (Z.quot (row_of p) 3 =? Z.quot (row_of q) 3) &&
  (Z.quot (col_of p) 3 =? Z.quot (col_of q) 3).
Definition same_unit (p q : Z) : bool := same_row p q || same_col p q || same_box p q.

(** The peers of a cell: the other cells of its row, column and box. *)
Definition peer (p q : Z) : bool := negb (p =? q) && same_unit p q.

Definition positions : list Z := range 0 81.

(** Issuing the calls [assign(pos, dig)] of a list, in order. *)
Definition run (b : Board) (calls : list (Z * Z)) : Board :=
  fold_left (fun b c => assign b (fst c) (snd c)) calls b.

(** Every call satisfies the assertions of [assign]. *)
Definition calls_assert (calls : list (Z * Z)) : bool :=
  forallb (fun c => assign_assert (fst c) (snd c)) calls.

(** The calls are mutually non-conflicting: each one satisfies the
    assertions of [assign] and its digit is a candidate of its cell at the
    time of the call. *)
Fixpoint nonconflicting (b : Board) (calls : list (Z * Z)) : bool :=
  match calls with
  | [] => true
  | (pos, dig) :: rest =>
      assign_assert pos dig && assignable_dig (cell b pos) dig &&
      nonconflicting (assign b pos dig) rest
  end.

(** No row, column or box holds the same assigned digit twice. *)
Definition unique_units (b : Board) : Prop :=
  forall p q, 0 <= p < num_cells -> 0 <= q < num_cells -> p <> q ->
    same_unit p q = true ->
    assigned_ (cell b p) <> 0 -> assigned_ (cell b p) <> assigned_ (cell b q).

(** Every cell holds 0 or a digit. *)
Definition digits_ok (b : Board) : Prop :=
  forall p, 0 <= p < num_cells -> 0 <= assigned_ (cell b p) <= 9.

(** An assigned digit is no candidate in the row, column and box of its
    cell. *)
Definition propagated (b : Board) : Prop :=
  forall p q, 0 <= p < num_cells -> 0 <= q < num_cells ->
    same_unit p q = true -> assigned_ (cell b p) <> 0 ->
    assignable_dig (cell b q) (assigned_ (cell b p)) = false.

Record consistent (b : Board) : Prop := mkConsistent {
  cons_length : length b = 81%nat;
  cons_digits : digits_ok b;
  cons_propagated : propagated b;
  cons_unique : unique_units b
}.

(** The frame of [assign] as the specification words it: the digit leaves
    the candidate sets of the peers of [p] only, and the candidate set of
    [p] itself is left as it was. *)
Definition frame_on_peers_only (b : Board) (p d : Z) : Prop :=
  forall q, 0 <= q < num_cells ->
    candidates (cell (assign b p d) q) =
    if peer p q then filter (fun e => negb (e =? d)) (candidates (cell b q))
    else candidates (cell b q).

(** [cant_assign] as the specification words it: no effect on a cell that is
    already assigned. *)
Definition forbid_skips_assigned (d : Z) (x : Cell) : Prop :=
  assigned_ x <> 0 -> candidates (cant_assign d x) = candidates x.

(** Fuel needed by [find] at position [pos] of the board [b]. *)
Definition fuel_needed (b : Board) (pos : Z) : Z :=
  2 * (num_cells - pos) + (if assigned_ (cell b pos) =? 0 then 2 else 1).

(** All 81 cells hold a digit. *)
Definition fully_assigned (b : Board) : Prop :=
  forall p, 0 <= p < num_cells -> 1 <= assigned_ (cell b p) <= 9.

(** The invariant of the scan at position [pos]: the board is consistent and
    the cells before [pos] are assigned. *)
Definition scan_inv (b : Board) (pos : Z) : Prop :=
  consistent b /\ 0 <= pos <= num_cells /\
  forall i, 0 <= i < pos -> assigned_ (cell b i) <> 0.

(** The digits of a board in row-major order. *)
Definition digits (b : Board) : list Z :=
  map (fun p => assigned_ (cell b p)) positions.

Definition digit_at (s : list Z) (p : Z) : Z := nth (Z.to_nat p) s 0.

(** [s] is a solved grid: 81 digits, none twice in a row, column or box. *)
Definition solution (s : list Z) : bool :=
  (length s =? 81)%nat &&
  forallb (fun p => dig_assert (digit_at s p)) positions &&
  forallb (fun p => forallb (fun q =>
     (p =? q) || negb (same_unit p q) || negb (digit_at s p =? digit_at s q))
     positions) positions.

(** The board [b] can still be completed to the solved grid [s] by the scan
    at [pos]. *)
Definition completes (s : list Z) (b : Board) (pos : Z) : Prop :=
  length b = 81%nat /\ 0 <= pos <= num_cells /\
  (forall q, 0 <= q < num_cells -> assigned_ (cell b q) <> 0 ->
     assigned_ (cell b q) = digit_at s q) /\
  (forall q, 0 <= q < num_cells -> assigned_ (cell b q) = 0 ->
     assignable_dig (cell b q) (digit_at s q) = true) /\
  (forall q, 0 <= q < pos -> assigned_ (cell b q) <> 0).

(** The solved grid printed in the header of [sudoku.cpp]. *)
Definition solved_grid : list Z :=
  [7;5;3; 8;6;2; 4;1;9;
   4;2;9; 1;7;5; 6;8;3;
   1;8;6; 4;3;9; 7;2;5;
   6;9;2; 3;5;8; 1;4;7;
   3;4;7; 6;9;1; 8;5;2;
   8;1;5; 7;2;4; 3;9;6;
   5;3;8; 9;1;6; 2;7;4;
   2;7;4; 5;8;3; 9;6;1;
   9;6;1; 2;4;7; 5;3;8].

(** Lexicographic order on sequences of digits. *)
Fixpoint lex_lt (l1 l2 : list Z) : Prop :=
  match l1, l2 with
  | x :: l1', y :: l2' => x < y \/ (x = y /\ lex_lt l1' l2')
  | [], _ :: _ => True
  | _, [] => False
  end.

(** [b1] comes before [b2] in the order of a row-major scan that tries the
    digits in ascending order: at the first cell where the boards differ, the
    digit of [b1] is the smaller one. *)
Definition before (b1 b2 : Board) : Prop := lex_lt (digits b1) (digits b2).

(** What the reading loop maintains: the counter never is negative, the
    board has its 81 cells, each holding 0 or a digit, and is the result of
    the recorded calls, and the recorded calls are inside the board. *)
Record reader_inv (s : reader) : Prop := mkReaderInv {
  ri_length : length (rd_board s) = 81%nat;
  ri_pos : 0 <= rd_pos s;
  ri_board : rd_board s = run Board_init (rd_calls s);
  ri_calls : Forall (fun c => 0 <= fst c <= 80) (rd_calls s);
  ri_digits : digits_ok (rd_board s)
}.

(** The calls are givens of the grid [s]: each one writes, inside the
    board, the digit that [s] has at its position. *)
Definition givens_of (s : list Z) (calls : list (Z * Z)) : bool :=
  forallb (fun c => pos_assert (fst c) && (snd c =? digit_at s (fst c))) calls.

(** The board [b] agrees with the grid [s] on its assigned cells, and the
    digit of [s] is still a candidate of every empty cell. *)
Definition extends_to (s : list Z) (b : Board) : Prop :=
  length b = 81%nat /\
  (forall q, 0 <= q < num_cells -> assigned_ (cell b q) <> 0 ->
     assigned_ (cell b q) = digit_at s q) /\
  (forall q, 0 <= q < num_cells -> assigned_ (cell b q) = 0 ->
     assignable_dig (cell b q) (digit_at s q) = true).

(** All 81 cells are assigned, as a test. *)
Definition all_assigned (b : Board) : bool :=
  forallb (fun p => negb (assigned_ (cell b p) =? 0)) positions.

(** The mask of the cell has no bit outside the bits 1 to 9. *)
Definition mask_in_digits (x : Cell) : Prop :=
  Z.land (assignable_ x) 1022 = assignable_ x.

(** The calls that [main] and [find] can issue: a position inside the
    board and a digit, or 0. *)
Definition calls_defined (calls : list (Z * Z)) : bool :=
  forallb (fun c => pos_assert (fst c) && (0 <=? snd c) && (snd c <=? 9)) calls.

(** The cells that an input stream denotes, in order: 0 for the placeholder,
    the value of the digit for a digit character; other characters denote no
    cell. *)
Fixpoint cells (input : string) : list Z :=
  match input with
  | EmptyString => []
  | String a rest =>
      if char_code a =? 95 then 0 :: cells rest
      else if isdigit (char_code a) then (char_code a - 48) :: cells rest
      else cells rest
  end.

(** The stream holds no character ['0']. *)
Fixpoint zero_free (input : string) : bool :=
  match input with
  | EmptyString => true
  | String a rest => negb (char_code a =? 48) && zero_free rest
  end.

(** The calls of [assign] that the reading loop issues for the cells [cs]
    of a stream without ['0'], the counter being at [pos]: one for each digit
    that falls inside the board. *)
Fixpoint calls_from (pos : Z) (cs : list Z) : list (Z * Z) :=
  match cs with
  | [] => []
  | d :: rest =>
      (if (d =? 0) || negb (pos <? num_cells) then [] else [(pos, d)]) ++
      calls_from (pos + 1) rest
  end.

(** The grid [s] fills the puzzle whose cells from [pos] on are [cs]: it
    has the digit of every cell of the puzzle that is not empty. *)
Fixpoint fills (s : list Z) (pos : Z) (cs : list Z) : bool :=
  match cs with
  | [] => true
  | d :: rest => ((d =? 0) || (d =? digit_at s pos)) && fills s (pos + 1) rest
  end.

(** A puzzle with four solutions: the solved grid of the header without
    the cells 1, 2, 5, 8 of its first row and 10, 11, 14, 17 of its second
    row, where the digits 5 and 2, and the digits 3 and 9, can be exchanged
    between the two rows. *)
Definition four_fold_cells : list Z :=
  map (fun p => if existsb (Z.eqb p) [1; 2; 5; 8; 10; 11; 14; 17] then 0
                else digit_at solved_grid p) positions.

Definition four_fold_puzzle : Board := run Board_init (calls_from 0 four_fold_cells).

(** ** The rendering *)

Local Open Scope string_scope.

(** The character of a digit. *)
Definition digit_char (d : Z) : ascii := ascii_of_N (Z.to_N (48 + d)).

(** The rendering in the words of the specification: the digit of a cell,
    the nine digits of a row in three groups of three separated by a single
    space, and the nine rows, each on a line of its own, followed by a blank
    line. *)
Definition digit_text (b : Board) (r c : Z) : string :=
  String (digit_char (assigned_ (cell_rc b r c))) "".

Definition row_text (b : Board) (r : Z) : string :=
  digit_text b r 0 ++ digit_text b r 1 ++ digit_text b r 2 ++ " " ++
  digit_text b r 3 ++ digit_text b r 4 ++ digit_text b r 5 ++ " " ++
  digit_text b r 6 ++ digit_text b r 7 ++ digit_text b r 8.

Definition rendering_spec (b : Board) : string :=
  row_text b 0 ++ newline ++ row_text b 1 ++ newline ++ row_text b 2 ++ newline ++
  row_text b 3 ++ newline ++ row_text b 4 ++ newline ++ row_text b 5 ++ newline ++
  row_text b 6 ++ newline ++ row_text b 7 ++ newline ++ row_text b 8 ++ newline ++
  newline.

(** What [print_cell] appends for a cell that holds a digit. *)
Definition cell_text (b : Board) (r c : Z) : string :=
  digit_text b r c ++ (if (c =? 2)%Z || (c =? 5)%Z then " " else "").

(** Every cell holds 0 or a digit, as a test. *)
Definition digits_okb (b : Board) : bool :=
  forallb (fun p => (0 <=? assigned_ (cell b p))%Z && (assigned_ (cell b p) <=? 9)%Z)
          positions.

(** The solved grid of the header as a board; every candidate mask of a
    solved board is empty. *)
Definition solved_board : Board :=
  map (fun d => {| assigned_ := d; assignable_ := 0 |}) solved_grid.

(** The board [b], scanned from position 0, can still be completed to the
    grid [s], as a test. *)
Definition completesb (s : list Z) (b : Board) : bool :=
  (length b =? 81)%nat &&
  forallb (fun q => if (assigned_ (cell b q) =? 0)%Z
                    then assignable_dig (cell b q) (digit_at s q)
                    else (assigned_ (cell b q) =? digit_at s q)%Z) positions.

(** The character printed for a cell: its digit, or the placeholder when
    the cell is empty. *)
Definition cell_char (d : Z) : ascii :=
  if (d =? 0)%Z then "_"%char else digit_char d.

(** The layout of a printed board whose characters are given by [ch]. *)
Definition row_layout (ch : Z -> ascii) : string :=
  String (ch 0%Z) (String (ch 1%Z) (String (ch 2%Z) (String " "%char
  (String (ch 3%Z) (String (ch 4%Z) (String (ch 5%Z) (String " "%char
  (String (ch 6%Z) (String (ch 7%Z) (String (ch 8%Z) "")))))))))).

Definition board_layout (ch : Z -> Z -> ascii) : string :=
  row_layout (ch 0%Z) ++ newline ++ row_layout (ch 1%Z) ++ newline ++
  row_layout (ch 2%Z) ++ newline ++ row_layout (ch 3%Z) ++ newline ++
  row_layout (ch 4%Z) ++ newline ++ row_layout (ch 5%Z) ++ newline ++
  row_layout (ch 6%Z) ++ newline ++ row_layout (ch 7%Z) ++ newline ++
  row_layout (ch 8%Z) ++ newline ++ newline.

(** The stream of [n] placeholders followed by [rest]. *)
Definition placeholders (n : N) (rest : string) : string :=
  N.iter n (String "_"%char) rest.

(** The file [sudoku1.txt] of the header of [sudoku.cpp]. *)
Definition sudoku1 : string :=
  "__3 86_ ___" ++ newline ++ "_2_ ___ 6_3" ++ newline ++ "1__ ___ _2_" ++ newline ++
  newline ++
  "___ 3__ _4_" ++ newline ++ "__7 __1 ___" ++ newline ++ "__5 __4 3__" ++ newline ++
  newline ++
  "___ _1_ _74" ++ newline ++ "27_ __3 __1" ++ newline ++ "9__ 2__ ___" ++ newline.

Local Close Scope string_scope.

(** * Properties *)

(** ** Lists as arrays *)

Lemma in_range (lo : Z) (n : nat) (z : Z) :
  In z (range lo n) <-> lo <= z < lo + Z.of_nat n.
Proof.
  unfold range. rewrite in_map_iff. split.
  - intros [i [<- Hi]]. apply in_seq in Hi. lia.
  - intros H. exists (Z.to_nat (z - lo)). split; [lia|]. apply in_seq. lia.
Qed.

Lemma forallb_range (P : Z -> bool) (lo : Z) (n : nat) :
  forallb P (range lo n) = true ->
  forall z, lo <= z < lo + Z.of_nat n -> P z = true.
Proof.
  intros H z Hz. rewrite forallb_forall in H. apply H, in_range, Hz.
Qed.

Lemma length_modify_nth (f : Cell -> Cell) (l : list Cell) (n : nat) :
  length (modify_nth n f l) = length l.
Proof.
  revert n. induction l as [|x l IH]; intros [|n]; simpl; auto.
Qed.

Lemma length_modify (b : Board) (pos : Z) (f : Cell -> Cell) :
  length (modify b pos f) = length b.
Proof.
  unfold modify. destruct (0 <=? pos); auto using length_modify_nth.
Qed.

Lemma nth_modify_nth (f : Cell -> Cell) (l : list Cell) (n m : nat) :
  nth m (modify_nth n f l) Cell_init =
  if (m =? n)%nat && (n <? length l)%nat then f (nth m l Cell_init)
  else nth m l Cell_init.
Proof.
  revert n m. induction l as [|x l IH]; intros [|n] [|m]; simpl; auto.
  destruct (m =? n)%nat; reflexivity.
Qed.

Lemma cell_modify (b : Board) (pos q : Z) (f : Cell -> Cell) :
  cell (modify b pos f) q =
  if (q =? pos) && in_board b pos then f (cell b q) else cell b q.
Proof.
  unfold cell, modify, in_board.
  destruct (Z.leb_spec 0 pos) as [Hp|Hp]; simpl.
  - destruct (Z.leb_spec 0 q) as [Hq|Hq].
    + rewrite nth_modify_nth.
      destruct (Z.eqb_spec q pos) as [->|Hne].
      * rewrite Nat.eqb_refl. simpl.
        destruct (Nat.ltb_spec (Z.to_nat pos) (length b));
          destruct (Z.ltb_spec pos (Z.of_nat (length b))); auto; lia.
      * destruct (Nat.eqb_spec (Z.to_nat q) (Z.to_nat pos)); [lia|reflexivity].
    + destruct (Z.eqb_spec q pos); [lia|reflexivity].
  - rewrite andb_false_r. reflexivity.
Qed.

Lemma length_modify_all (f : Cell -> Cell) (l : list Z) (b : Board) :
  length (modify_all f l b) = length b.
Proof.
  unfold modify_all. revert b. induction l as [|i l IH]; intros b; simpl; auto.
  rewrite IH. apply length_modify.
Qed.

Lemma cell_modify_all (f : Cell -> Cell) (l : list Z) (b : Board) (q : Z) :
  (forall x, f (f x) = f x) ->
  cell (modify_all f l b) q =
  if existsb (Z.eqb q) l && in_board b q then f (cell b q) else cell b q.
Proof.
  intros Hf. unfold modify_all. revert b.
  induction l as [|i l IH]; intros b; simpl; auto.
  rewrite IH. unfold in_board at 1. rewrite length_modify. fold (in_board b q).
  rewrite cell_modify.
  destruct (Z.eqb_spec q i) as [->|Hne]; simpl.
  - destruct (in_board b i); simpl.
    + rewrite andb_true_r. destruct (existsb (Z.eqb i) l); auto.
    + rewrite andb_false_r. reflexivity.
  - reflexivity.
Qed.

Lemma fold_left_map_modify (f : Cell -> Cell) (g : Z -> Z) (l : list Z) (b : Board) :
  fold_left (fun b i => modify b (g i) f) l b = modify_all f (map g l) b.
Proof.
  unfold modify_all. revert b. induction l as [|i l IH]; intros b; simpl; auto.
Qed.

Lemma modify_all_app (f : Cell -> Cell) (l1 l2 : list Z) (b : Board) :
  modify_all f (l1 ++ l2) b = modify_all f l2 (modify_all f l1 b).
Proof. unfold modify_all. apply fold_left_app. Qed.

Lemma fold_left_flat_map_modify (f : Cell -> Cell) (h : Z -> Z -> Z)
      (lr lc : list Z) (b : Board) :
  fold_left (fun b r => fold_left (fun b c => modify b (h r c) f) lc b) lr b =
  modify_all f (flat_map (fun r => map (h r) lc) lr) b.
Proof.
  revert b. induction lr as [|r lr IH]; intros b; simpl; auto.
  rewrite IH, modify_all_app, fold_left_map_modify. reflexivity.
Qed.

(** ** Bits of the candidate mask *)

Lemma land_pow2 (a e : Z) :
  0 <= e -> Z.land a (2 ^ e) = if Z.testbit a e then 2 ^ e else 0.
Proof.
  intros He. apply Z.bits_inj'. intros i Hi.
  rewrite Z.land_spec, Z.pow2_bits_eqb by assumption.
  destruct (Z.eqb_spec e i) as [->|Hne].
  - destruct (Z.testbit a i); simpl.
    + rewrite Z.pow2_bits_true; auto.
    + rewrite Z.bits_0. reflexivity.
  - rewrite andb_false_r. destruct (Z.testbit a e).
    + rewrite Z.pow2_bits_false; auto.
    + rewrite Z.bits_0. reflexivity.
Qed.

Lemma assignable_dig_testbit (x : Cell) (e : Z) :
  0 <= e < 32 -> assignable_dig x e = Z.testbit (assignable_ x) e.
Proof.
  intros He. unfold assignable_dig, to_unsigned.
  rewrite Z.shiftl_1_l, Z.mod_small.
  - rewrite land_pow2 by lia. destruct (Z.testbit (assignable_ x) e); auto.
    destruct (Z.eqb_spec (2 ^ e) 0) as [H0|]; auto.
    pose proof (Z.pow_pos_nonneg 2 e). lia.
  - split; [apply Z.pow_nonneg; lia|apply Z.pow_lt_mono_r; lia].
Qed.

Lemma testbit_cant_assign (d : Z) (x : Cell) (e : Z) :
  0 <= d -> 0 <= e < 32 ->
  Z.testbit (assignable_ (cant_assign d x)) e =
  Z.testbit (assignable_ x) e && negb (e =? d).
Proof.
  intros Hd He. unfold cant_assign, to_unsigned. cbn [assignable_].
  rewrite Z.land_spec, Z.mod_pow2_bits_low by lia.
  rewrite Z.lnot_spec, Z.shiftl_1_l, Z.pow2_bits_eqb by lia.
  rewrite (Z.eqb_sym d e). reflexivity.
Qed.

Lemma assignable_dig_cant_assign (d : Z) (x : Cell) (e : Z) :
  0 <= d -> 0 <= e < 32 ->
  assignable_dig (cant_assign d x) e = assignable_dig x e && negb (e =? d).
Proof.
  intros Hd He. rewrite !assignable_dig_testbit by assumption.
  apply testbit_cant_assign; assumption.
Qed.

Lemma cant_assign_idem (d : Z) (x : Cell) :
  cant_assign d (cant_assign d x) = cant_assign d x.
Proof.
  unfold cant_assign. cbn [assignable_ assigned_]. f_equal.
  rewrite <- Z.land_assoc, Z.land_diag. reflexivity.
Qed.

Lemma assigned_cant_assign (d : Z) (x : Cell) :
  assigned_ (cant_assign d x) = assigned_ x.
Proof. reflexivity. Qed.

Lemma in_candidates (x : Cell) (e : Z) :
  In e (candidates x) <-> 1 <= e <= 9 /\ assignable_dig x e = true.
Proof.
  unfold candidates. rewrite filter_In, in_range. simpl. intuition lia.
Qed.

(** [cant_assign] removes exactly the digit [d] from the candidate set. *)
Lemma candidates_cant_assign (d : Z) (x : Cell) :
  0 <= d ->
  candidates (cant_assign d x) = filter (fun e => negb (e =? d)) (candidates x).
Proof.
  intros Hd. unfold candidates.
  assert (H : forall l, (forall e, In e l -> 0 <= e < 32) ->
            filter (assignable_dig (cant_assign d x)) l =
            filter (fun e => negb (e =? d)) (filter (assignable_dig x) l)).
  { induction l as [|e l IH]; intros Hl; simpl; auto.
    rewrite assignable_dig_cant_assign by (auto using in_eq; lia).
    destruct (assignable_dig x e); simpl.
    - destruct (negb (e =? d)); rewrite IH; auto using in_cons.
    - apply IH. auto using in_cons. }
  apply H. intros e He. apply in_range in He. simpl in He. lia.
Qed.

(** ** The cells reached by [assign] *)

Lemma assign_modify_all (b : Board) (pos dig : Z) :
  assign b pos dig =
  modify_all (cant_assign dig) (touched pos) (modify b pos (set_assigned dig)).
Proof.
  unfold assign, touched.
  rewrite !modify_all_app, <- !fold_left_map_modify.
  rewrite <- fold_left_flat_map_modify. reflexivity.
Qed.

Lemma in_positions (p : Z) : In p positions <-> 0 <= p < num_cells.
Proof. unfold positions. rewrite in_range. unfold num_cells. lia. Qed.

(** A test that holds of the 81 positions, found by running it, holds of
    the position [p]. *)
Ltac on_all_positions test p Hp H :=
  assert (H : forallb test positions = true) by (vm_compute; reflexivity);
  apply (fun H0 => forallb_range test 0 81 H0 p Hp) in H; cbv beta in H.

(** The loops of [assign] reach the cells that share a row, a column or a
    box with [p], and no other. *)
Lemma touched_same_unit (p q : Z) :
  0 <= p < num_cells -> 0 <= q < num_cells ->
  existsb (Z.eqb q) (touched p) = same_unit p q.
Proof.
  intros Hp Hq.
  on_all_positions
    (fun p => forallb (fun q =>
       Bool.eqb (existsb (Z.eqb q) (touched p)) (same_unit p q)) positions) p Hp H.
  pose proof (forallb_range _ _ _ H q Hq) as H2. cbv beta in H2.
  apply Bool.eqb_prop, H2.
Qed.

(** The loops of [assign] stay inside the board: the assertions of [cell]
    hold there. *)
Lemma touched_in_board (p : Z) :
  0 <= p < num_cells -> forall q, In q (touched p) -> 0 <= q < num_cells.
Proof.
  intros Hp.
  on_all_positions (fun p => forallb pos_assert (touched p)) p Hp H.
  rewrite forallb_forall in H. intros q Hq. specialize (H q Hq).
  unfold pos_assert in H. lia.
Qed.

Lemma same_unit_sym (p q : Z) : same_unit p q = same_unit q p.
Proof.
  unfold same_unit, same_row, same_col, same_box.
  rewrite (Z.eqb_sym (row_of p)), (Z.eqb_sym (col_of p)).
  rewrite (Z.eqb_sym (Z.quot (row_of p) 3)), (Z.eqb_sym (Z.quot (col_of p) 3)).
  reflexivity.
Qed.

Lemma same_unit_refl (p : Z) : same_unit p p = true.
Proof. unfold same_unit, same_row. rewrite Z.eqb_refl. reflexivity. Qed.

(** Every cell has exactly 20 peers. *)
Lemma peers_count (p : Z) :
  0 <= p < num_cells -> length (filter (peer p) positions) = 20%nat.
Proof.
  intros Hp.
  on_all_positions (fun p => (length (filter (peer p) positions) =? 20)%nat) p Hp H.
  apply Nat.eqb_eq, H.
Qed.

Lemma in_board_true (b : Board) (q : Z) :
  length b = 81%nat -> 0 <= q < num_cells -> in_board b q = true.
Proof.
  intros Hb Hq. unfold in_board, num_cells in *. rewrite Hb.
  apply andb_true_intro. split; [apply Z.leb_le|apply Z.ltb_lt]; lia.
Qed.

(** The board as [assign] leaves it, cell by cell. *)
Lemma cell_assign (b : Board) (p d q : Z) :
  length b = 81%nat -> 0 <= p < num_cells -> 0 <= q < num_cells ->
  cell (assign b p d) q =
  let x := if q =? p then set_assigned d (cell b q) else cell b q in
  if same_unit p q then cant_assign d x else x.
Proof.
  intros Hb Hp Hq. rewrite assign_modify_all.
  rewrite cell_modify_all by apply cant_assign_idem.
  rewrite touched_same_unit by assumption.
  rewrite cell_modify.
  rewrite !in_board_true by (rewrite ?length_modify; assumption).
  rewrite !andb_true_r. reflexivity.
Qed.

Lemma length_assign (b : Board) (p d : Z) : length (assign b p d) = length b.
Proof.
  rewrite assign_modify_all, length_modify_all, length_modify. reflexivity.
Qed.

Lemma assigned_assign (b : Board) (p d q : Z) :
  length b = 81%nat -> 0 <= p < num_cells -> 0 <= q < num_cells ->
  assigned_ (cell (assign b p d) q) = if q =? p then d else assigned_ (cell b q).
Proof.
  intros Hb Hp Hq. rewrite cell_assign by assumption. cbv zeta.
  destruct (same_unit p q), (q =? p); reflexivity.
Qed.

Lemma assignable_assign (b : Board) (p d q : Z) :
  length b = 81%nat -> 0 <= p < num_cells -> 0 <= q < num_cells ->
  assignable_ (cell (assign b p d) q) =
  if same_unit p q then assignable_ (cant_assign d (cell b q))
  else assignable_ (cell b q).
Proof.
  intros Hb Hp Hq. rewrite cell_assign by assumption. cbv zeta.
  destruct (same_unit p q), (q =? p); reflexivity.
Qed.

Lemma assignable_dig_assign (b : Board) (p d q e : Z) :
  length b = 81%nat -> 0 <= p < num_cells -> 0 <= q < num_cells ->
  0 <= d -> 0 <= e < 32 ->
  assignable_dig (cell (assign b p d) q) e =
  assignable_dig (cell b q) e && negb (same_unit p q && (e =? d)).
Proof.
  intros Hb Hp Hq Hd He. rewrite !assignable_dig_testbit by assumption.
  rewrite assignable_assign by assumption.
  destruct (same_unit p q); cbn [andb negb].
  - apply testbit_cant_assign; assumption.
  - rewrite andb_true_r. reflexivity.
Qed.

Lemma candidates_assign (b : Board) (p d q : Z) :
  length b = 81%nat -> 0 <= p < num_cells -> 0 <= q < num_cells -> 0 <= d ->
  candidates (cell (assign b p d) q) =
  if same_unit p q then filter (fun e => negb (e =? d)) (candidates (cell b q))
  else candidates (cell b q).
Proof.
  intros Hb Hp Hq Hd.
  destruct (same_unit p q) eqn:Hu.
  - rewrite <- candidates_cant_assign by assumption.
    unfold candidates. apply filter_ext_in. intros e He.
    apply in_range in He. cbn in He.
    rewrite assignable_dig_assign, assignable_dig_cant_assign by lia.
    rewrite Hu. reflexivity.
  - unfold candidates. apply filter_ext_in. intros e He.
    apply in_range in He. cbn in He.
    rewrite assignable_dig_assign by lia.
    rewrite Hu. apply andb_true_r.
Qed.

(** ** Sequences of calls of [assign] *)

Lemma assign_assert_spec (pos dig : Z) :
  assign_assert pos dig = true <-> (0 <= pos < num_cells) /\ (1 <= dig <= 9).
Proof.
  unfold assign_assert, pos_assert, dig_assert.
  rewrite !andb_true_iff, !Z.leb_le, Z.ltb_lt. tauto.
Qed.

Lemma length_run (b : Board) (calls : list (Z * Z)) :
  length (run b calls) = length b.
Proof.
  unfold run. revert b. induction calls as [|c calls IH]; intros b; simpl; auto.
  rewrite IH. apply length_assign.
Qed.

(** ** The invariant of the board *)

Lemma cell_Board_init (p : Z) : cell Board_init p = Cell_init.
Proof.
  unfold cell, Board_init. destruct (0 <=? p); auto.
  generalize (Z.to_nat p) (Z.to_nat num_cells). intros n m. revert n.
  induction m as [|m IH]; intros [|n]; simpl; auto.
Qed.

Lemma consistent_Board_init : consistent Board_init.
Proof.
  split.
  - reflexivity.
  - intros p _. rewrite cell_Board_init. simpl. lia.
  - intros p q _ _ _ H. rewrite cell_Board_init in H. simpl in H. lia.
  - intros p q _ _ _ _ H. rewrite cell_Board_init in H. simpl in H. lia.
Qed.

(** The guarantee of [assign]: uniqueness survives the call when no peer of
    the cell holds the digit. *)
Lemma unique_units_assign (b : Board) (p d : Z) :
  length b = 81%nat -> 0 <= p < num_cells ->
  unique_units b ->
  (forall q, 0 <= q < num_cells -> peer p q = true -> assigned_ (cell b q) <> d) ->
  unique_units (assign b p d).
Proof.
  intros Hb Hp Hu Hfree p' q' Hp' Hq' Hne Hsu.
  rewrite !assigned_assign by assumption.
  destruct (Z.eqb_spec p' p) as [->|Hp'p]; destruct (Z.eqb_spec q' p) as [->|Hq'p].
  - congruence.
  - intros _ Heq. apply (Hfree q' Hq'); [|congruence].
    unfold peer. rewrite Hsu. destruct (Z.eqb_spec p q'); [congruence|reflexivity].
  - intros _ Heq. apply (Hfree p' Hp'); [|congruence].
    unfold peer. rewrite same_unit_sym, Hsu.
    destruct (Z.eqb_spec p p'); [congruence|reflexivity].
  - apply Hu; assumption.
Qed.

Lemma consistent_assign (b : Board) (p d : Z) :
  consistent b -> 0 <= p < num_cells -> 1 <= d <= 9 ->
  assignable_dig (cell b p) d = true ->
  consistent (assign b p d).
Proof.
  intros [Hb Hdig Hprop Hu] Hp Hd Hcand. split.
  - rewrite length_assign. exact Hb.
  - intros q Hq. rewrite assigned_assign by assumption.
    destruct (q =? p); [lia|apply Hdig, Hq].
  - intros p' q Hp' Hq Hsu. rewrite assigned_assign by assumption.
    destruct (Z.eqb_spec p' p) as [->|Hne]; intros Hnz.
    + rewrite assignable_dig_assign by (assumption || lia).
      rewrite Hsu, Z.eqb_refl. apply andb_false_r.
    + pose proof (Hdig p' Hp').
      rewrite assignable_dig_assign by (assumption || lia).
      rewrite (Hprop p' q) by assumption. reflexivity.
  - apply unique_units_assign; try assumption.
    intros q Hq Hpeer Heq. unfold peer in Hpeer.
    apply andb_true_iff in Hpeer. destruct Hpeer as [_ Hsu].
    assert (Hnz : assigned_ (cell b q) <> 0) by lia.
    pose proof (Hprop q p Hq Hp) as H. rewrite same_unit_sym in H.
    specialize (H Hsu Hnz). rewrite Heq in H. congruence.
Qed.

Lemma nonconflicting_firstn (b : Board) (calls : list (Z * Z)) (k : nat) :
  nonconflicting b calls = true -> nonconflicting b (firstn k calls) = true.
Proof.
  revert b k. induction calls as [|[p d] calls IH]; intros b [|k] H; simpl; auto.
  simpl in H. apply andb_true_iff in H. destruct H as [H1 H2].
  rewrite H1. simpl. apply IH, H2.
Qed.

Lemma consistent_run (b : Board) (calls : list (Z * Z)) :
  consistent b -> nonconflicting b calls = true -> consistent (run b calls).
Proof.
  revert b. induction calls as [|[p d] calls IH]; intros b Hc H; simpl; auto.
  simpl in H. rewrite !andb_true_iff in H. destruct H as [[Ha Hd] Hrest].
  apply assign_assert_spec in Ha. destruct Ha as [Hp Hdig].
  apply IH; [|exact Hrest]. apply consistent_assign; assumption.
Qed.

(** ** Claims about [assign] *)

(** C2: take any sequence of calls of [assign] on a fresh board in which
    every digit is a candidate of its cell when it is assigned.  After each
    call (that is, after every prefix of the sequence) no row, column or box
    holds the same assigned digit twice. *)
Theorem assign_preserves_uniqueness (calls : list (Z * Z)) (k : nat) :
  nonconflicting Board_init calls = true ->
  unique_units (run Board_init (firstn k calls)).
Proof.
  intros H. apply cons_unique, consistent_run.
  - apply consistent_Board_init.
  - apply nonconflicting_firstn, H.
Qed.

Lemma assign_preserves_uniqueness_witness :
  nonconflicting Board_init [(0, 5); (1, 3); (40, 5); (80, 9)] = true /\
  unique_units (run Board_init (firstn 3 [(0, 5); (1, 3); (40, 5); (80, 9)])).
Proof.
  split; [vm_compute; reflexivity|].
  apply (assign_preserves_uniqueness [(0, 5); (1, 3); (40, 5); (80, 9)] 3).
  vm_compute; reflexivity.
Defined.

(** C4: for every cell of a board, the candidate set after any sequence of
    calls of [assign] is a subset of the candidate set before the calls. *)
Theorem candidates_never_grow (b : Board) (calls : list (Z * Z)) (q : Z) :
  length b = 81%nat -> calls_assert calls = true -> 0 <= q < num_cells ->
  incl (candidates (cell (run b calls) q)) (candidates (cell b q)).
Proof.
  revert b. induction calls as [|[p d] calls IH]; intros b Hb Hc Hq; simpl.
  - apply incl_refl.
  - simpl in Hc. apply andb_true_iff in Hc. destruct Hc as [Ha Hc].
    apply assign_assert_spec in Ha. destruct Ha as [Hp Hd].
    eapply incl_tran.
    + apply IH; [rewrite length_assign|..]; assumption.
    + rewrite candidates_assign by (assumption || lia).
      destruct (same_unit p q); [|apply incl_refl].
      intros e He. apply filter_In in He. tauto.
Qed.

Lemma candidates_never_grow_witness :
  length Board_init = 81%nat /\ calls_assert [(0, 5); (1, 5); (9, 2)] = true /\
  0 <= 10 < num_cells /\
  incl (candidates (cell (run Board_init [(0, 5); (1, 5); (9, 2)]) 10))
       (candidates (cell Board_init 10)).
Proof.
  split; [reflexivity|]. split; [reflexivity|]. split; [unfold num_cells; lia|].
  apply (candidates_never_grow Board_init [(0, 5); (1, 5); (9, 2)] 10).
  - reflexivity.
  - reflexivity.
  - unfold num_cells; lia.
Defined.

(** C5, as stated, fails: [assign(0, 1)] on a fresh board removes 1 from the
    candidate set of cell 0 itself, and [cant_assign(2)] removes 2 from the
    candidate set of that cell although it is assigned. *)
Lemma assign_frame_counterexample :
  ~ frame_on_peers_only Board_init 0 1 /\
  ~ forbid_skips_assigned 2 (cell (assign Board_init 0 1) 0).
Proof.
  split.
  - intros H.
    assert (Hq : 0 <= 0 < num_cells) by (unfold num_cells; lia).
    specialize (H 0 Hq). vm_compute in H. discriminate H.
  - intros H.
    assert (Hnz : assigned_ (cell (assign Board_init 0 1) 0) <> 0)
      by (vm_compute; discriminate).
    specialize (H Hnz). vm_compute in H. discriminate H.
Qed.

(** C5, amended: [assign(p, d)] removes [d] from the candidate sets of
    exactly 21 cells, namely [p] itself and its 20 peers (the cells of its
    row, column and box); the candidate set of every other cell is unchanged,
    and [cant_assign] removes the digit whether or not the cell is
    assigned. *)
Theorem assign_frame (b : Board) (p d : Z) :
  length b = 81%nat -> 0 <= p < num_cells -> 1 <= d <= 9 ->
  (forall q, 0 <= q < num_cells ->
     candidates (cell (assign b p d) q) =
     if (q =? p) || peer p q
     then filter (fun e => negb (e =? d)) (candidates (cell b q))
     else candidates (cell b q)) /\
  length (filter (peer p) positions) = 20%nat /\
  (forall x, candidates (cant_assign d x) =
             filter (fun e => negb (e =? d)) (candidates x)).
Proof.
  intros Hb Hp Hd. split; [|split].
  - intros q Hq. rewrite candidates_assign by (assumption || lia).
    replace ((q =? p) || peer p q) with (same_unit p q); [reflexivity|].
    unfold peer. rewrite (Z.eqb_sym q p).
    destruct (Z.eqb_spec p q) as [->|Hne]; simpl; auto using same_unit_refl.
  - apply peers_count, Hp.
  - intros x. apply candidates_cant_assign. lia.
Qed.

Lemma assign_frame_witness :
  length Board_init = 81%nat /\ 0 <= 40 < num_cells /\ 1 <= 7 <= 9 /\
  candidates (cell (assign Board_init 40 7) 40) =
  filter (fun e => negb (e =? 7)) (candidates (cell Board_init 40)).
Proof.
  split; [reflexivity|]. split; [unfold num_cells; lia|]. split; [lia|].
  assert (Hp : 0 <= 40 < num_cells) by (unfold num_cells; lia).
  assert (Hd : 1 <= 7 <= 9) by lia.
  exact (proj1 (assign_frame Board_init 40 7 eq_refl Hp Hd) 40 Hp).
Defined.

(** ** The loop over the digits *)

Section Branches.
Variable x : Cell.

Lemma branches_total (try : Z -> option (list Board)) (digs : list Z) :
  (forall d, In d digs -> assignable_dig x d = true -> exists o, try d = Some o) ->
  exists out, branches x try digs = Some out.
Proof.
  induction digs as [|d digs IH]; intros H; simpl.
  - eauto.
  - destruct IH as [out2 IH]; [intros; apply H; simpl; auto|].
    destruct (assignable_dig x d) eqn:Hd.
    + destruct (H d (or_introl eq_refl) Hd) as [o Ho].
      rewrite Ho, IH. eauto.
    + eauto.
Qed.

Lemma branches_mono (try1 try2 : Z -> option (list Board)) (digs : list Z)
      (out : list Board) :
  (forall d o, In d digs -> try1 d = Some o -> try2 d = Some o) ->
  branches x try1 digs = Some out -> branches x try2 digs = Some out.
Proof.
  revert out. induction digs as [|d digs IH]; intros out H; simpl; auto.
  destruct (assignable_dig x d).
  - destruct (try1 d) as [o1|] eqn:H1; [|discriminate].
    destruct (branches x try1 digs) as [o2|] eqn:H2; [|discriminate].
    intros Ho. rewrite (H d o1 (or_introl eq_refl) H1).
    rewrite (IH o2 (fun d' o Hd' => H d' o (or_intror Hd')) eq_refl). exact Ho.
  - apply IH. intros; apply H; simpl; auto.
Qed.

Lemma branches_In (try : Z -> option (list Board)) (digs : list Z)
      (out : list Board) :
  branches x try digs = Some out ->
  forall b', In b' out <->
    exists d o, In d digs /\ assignable_dig x d = true /\ try d = Some o /\ In b' o.
Proof.
  revert out. induction digs as [|d digs IH]; intros out; simpl.
  - intros [= <-] b'. split; [intros []|intros (d & o & [] & _)].
  - destruct (assignable_dig x d) eqn:Hd.
    + destruct (try d) as [o1|] eqn:H1; [|discriminate].
      destruct (branches x try digs) as [o2|] eqn:H2; [|discriminate].
      intros [= <-] b'. rewrite in_app_iff, (IH o2 eq_refl). split.
      * intros [Hin|(d' & o & Hd' & Ha & Ht & Hin)].
        -- exists d, o1. auto.
        -- exists d', o. auto.
      * intros (d' & o & [<-|Hd'] & Ha & Ht & Hin).
        -- left. congruence.
        -- right. exists d', o. auto.
    + intros Hb b'. rewrite (IH out Hb). split.
      * intros (d' & o & Hd' & Ha & Ht & Hin). exists d', o. auto.
      * intros (d' & o & [<-|Hd'] & Ha & Ht & Hin); [congruence|].
        exists d', o. auto.
Qed.
End Branches.

Lemma StronglySorted_app {A : Type} (R : A -> A -> Prop) (l1 l2 : list A) :
  StronglySorted R l1 -> StronglySorted R l2 ->
  (forall a b, In a l1 -> In b l2 -> R a b) ->
  StronglySorted R (l1 ++ l2).
Proof.
  induction l1 as [|a l1 IH]; intros H1 H2 H; simpl; auto.
  apply StronglySorted_inv in H1. destruct H1 as [H1 Ha].
  constructor.
  - apply IH; auto. intros; apply H; simpl; auto.
  - apply Forall_app. split; auto.
    apply Forall_forall. intros b Hb. apply H; simpl; auto.
Qed.

Lemma branches_sorted (R : Board -> Board -> Prop) (x : Cell)
      (try : Z -> option (list Board)) (digs : list Z) (out : list Board) :
  StronglySorted Z.lt digs ->
  (forall d o, In d digs -> try d = Some o -> StronglySorted R o) ->
  (forall d1 d2 o1 o2 b1 b2, In d1 digs -> In d2 digs -> d1 < d2 ->
     try d1 = Some o1 -> try d2 = Some o2 -> In b1 o1 -> In b2 o2 -> R b1 b2) ->
  branches x try digs = Some out ->
  StronglySorted R out.
Proof.
  revert out. induction digs as [|d digs IH]; intros out Hs Hsub Hcross; simpl.
  - intros [= <-]. constructor.
  - apply StronglySorted_inv in Hs. destruct Hs as [Hs Hd].
    rewrite Forall_forall in Hd.
    destruct (assignable_dig x d).
    + destruct (try d) as [o1|] eqn:H1; [|discriminate].
      destruct (branches x try digs) as [o2|] eqn:H2; [|discriminate].
      intros [= <-]. apply StronglySorted_app.
      * apply (Hsub d); simpl; auto.
      * apply IH; auto.
        -- intros d' o Hd'. apply (Hsub d' o (or_intror Hd')).
        -- intros d1 d2 p1 p2 b1 b2 Hd1 Hd2.
           apply (Hcross d1 d2 p1 p2 b1 b2 (or_intror Hd1) (or_intror Hd2)).
      * intros b1 b2 Hb1 Hb2.
        apply (branches_In x try digs o2 H2) in Hb2.
        destruct Hb2 as (d2 & o & Hd2 & _ & Ht & Hin).
        apply (Hcross d d2 o1 o); simpl; auto.
    + intros Hb. apply IH; auto.
      * intros d' o Hd'. apply (Hsub d' o (or_intror Hd')).
      * intros d1 d2 p1 p2 b1 b2 Hd1 Hd2.
        apply (Hcross d1 d2 p1 p2 b1 b2 (or_intror Hd1) (or_intror Hd2)).
Qed.

(** ** The search *)

Lemma find_S (fuel : nat) (b : Board) (pos : Z) :
  find (S fuel) b pos =
  if pos =? num_cells then Some [b]
  else if assigned_ (cell b pos) =? 0 then
    if negb (assignable (cell b pos)) then Some []
    else branches (cell b pos) (fun dig => find fuel (assign b pos dig) pos) (range 1 9)
  else find fuel b (pos + 1).
Proof. reflexivity. Qed.

(** More fuel does not change the emissions. *)
Lemma find_mono (n m : nat) (b : Board) (pos : Z) (out : list Board) :
  (n <= m)%nat -> find n b pos = Some out -> find m b pos = Some out.
Proof.
  revert m b pos out. induction n as [|n IH]; intros m b pos out Hle; [discriminate|].
  destruct m as [|m]; [lia|]. rewrite !find_S.
  destruct (pos =? num_cells); auto.
  destruct (assigned_ (cell b pos) =? 0).
  - destruct (negb (assignable (cell b pos))); auto.
    apply branches_mono. intros d o _. apply IH. lia.
  - apply IH. lia.
Qed.

(** [find] returns: it runs out of no fuel that is at least [fuel_needed]. *)
Lemma find_returns (fuel : nat) (b : Board) (pos : Z) :
  length b = 81%nat -> 0 <= pos <= num_cells ->
  fuel_needed b pos <= Z.of_nat fuel ->
  exists out, find fuel b pos = Some out.
Proof.
  revert b pos. induction fuel as [|fuel IH]; intros b pos Hb Hpos Hfuel.
  - unfold fuel_needed in Hfuel. destruct (assigned_ (cell b pos) =? 0); lia.
  - rewrite find_S. destruct (Z.eqb_spec pos num_cells) as [|Hne]; [eauto|].
    unfold fuel_needed in Hfuel.
    destruct (Z.eqb_spec (assigned_ (cell b pos)) 0) as [Hz|Hnz].
    + destruct (negb (assignable (cell b pos))); [eauto|].
      apply branches_total. intros d Hd _. apply in_range in Hd.
      apply IH; [rewrite length_assign; exact Hb|assumption|].
      unfold fuel_needed. rewrite assigned_assign by (assumption || lia).
      rewrite Z.eqb_refl.
      destruct (Z.eqb_spec d 0); lia.
    + apply IH; [assumption|lia|].
      unfold fuel_needed. destruct (assigned_ (cell b (pos + 1)) =? 0); lia.
Qed.

Lemma find_total (b : Board) :
  length b = 81%nat -> exists out, find find_fuel b 0 = Some out.
Proof.
  intros Hb. apply find_returns; [assumption|unfold num_cells; lia|].
  unfold fuel_needed, find_fuel, num_cells.
  destruct (assigned_ (cell b 0) =? 0); lia.
Qed.

(** An invariant [P] of the scan that holds when [find] starts holds, at
    position 81, of every board it emits. *)
Lemma find_emits (P : Board -> Z -> Prop) :
  (forall b pos, P b pos -> pos <> num_cells -> assigned_ (cell b pos) <> 0 ->
     P b (pos + 1)) ->
  (forall b pos d, P b pos -> pos <> num_cells -> assigned_ (cell b pos) = 0 ->
     1 <= d <= 9 -> assignable_dig (cell b pos) d = true ->
     P (assign b pos d) pos) ->
  forall fuel b pos out, P b pos -> find fuel b pos = Some out ->
  forall b', In b' out -> P b' num_cells.
Proof.
  intros Hscan Hbranch. induction fuel as [|fuel IH]; intros b pos out HP; [discriminate|].
  rewrite find_S. destruct (Z.eqb_spec pos num_cells) as [->|Hne].
  - intros [= <-] b' [<-|[]]. exact HP.
  - destruct (Z.eqb_spec (assigned_ (cell b pos)) 0) as [Hz|Hnz].
    + destruct (negb (assignable (cell b pos))).
      * intros [= <-] b' [].
      * intros Hb b' Hin.
        apply (branches_In _ _ _ _ Hb) in Hin.
        destruct Hin as (d & o & Hd & Ha & Ht & Hin).
        apply in_range in Hd.
        apply (IH (assign b pos d) pos o); auto.
        apply Hbranch; auto. lia.
    + intros Hf. apply (IH b (pos + 1) out); auto.
Qed.

(** ** Soundness of the search *)

Lemma scan_inv_next (b : Board) (pos : Z) :
  scan_inv b pos -> pos <> num_cells -> assigned_ (cell b pos) <> 0 ->
  scan_inv b (pos + 1).
Proof.
  intros (Hc & Hpos & Hbefore) Hne Hnz. split; [assumption|]. split; [lia|].
  intros i Hi. destruct (Z.eq_dec i pos) as [->|]; [assumption|].
  apply Hbefore. lia.
Qed.

Lemma scan_inv_assign (b : Board) (pos d : Z) :
  scan_inv b pos -> pos <> num_cells -> assigned_ (cell b pos) = 0 ->
  1 <= d <= 9 -> assignable_dig (cell b pos) d = true ->
  scan_inv (assign b pos d) pos.
Proof.
  intros (Hc & Hpos & Hbefore) Hne Hz Hd Ha. split; [|split; [assumption|]].
  - apply consistent_assign; auto. lia.
  - intros i Hi. rewrite assigned_assign by (try apply Hc; lia).
    destruct (Z.eqb_spec i pos); [lia|]. apply Hbefore, Hi.
Qed.

Lemma find_sound (fuel : nat) (b : Board) (out : list Board) :
  consistent b -> find fuel b 0 = Some out ->
  forall b', In b' out -> fully_assigned b' /\ unique_units b'.
Proof.
  intros Hc Hf b' Hin.
  assert (H : scan_inv b' num_cells).
  { apply (find_emits scan_inv scan_inv_next scan_inv_assign fuel b 0 out); auto.
    split; [assumption|]. split; [unfold num_cells; lia|]. intros i Hi. lia. }
  destruct H as (Hc' & _ & Hall). split.
  - intros p Hp. pose proof (cons_digits _ Hc' p Hp). specialize (Hall p Hp). lia.
  - apply Hc'.
Qed.

(** C1: on every board built from the fresh board by mutually
    non-conflicting calls of [assign], [find(0)] returns, and every board it
    emits has a digit 1..9 in each of its 81 cells and no digit twice in a
    row, column or box. *)
Theorem search_sound (calls : list (Z * Z)) :
  nonconflicting Board_init calls = true ->
  exists out, find find_fuel (run Board_init calls) 0 = Some out /\
    forall b', In b' out -> fully_assigned b' /\ unique_units b'.
Proof.
  intros H.
  assert (Hc : consistent (run Board_init calls))
    by (apply consistent_run; [apply consistent_Board_init|exact H]).
  destruct (find_total (run Board_init calls) (cons_length _ Hc)) as [out Hf].
  exists out. split; [exact Hf|]. apply (find_sound _ _ _ Hc Hf).
Qed.

Lemma search_sound_witness :
  nonconflicting Board_init [(2, 3); (3, 8); (4, 6); (10, 2); (80, 3)] = true /\
  exists out,
    find find_fuel (run Board_init [(2, 3); (3, 8); (4, 6); (10, 2); (80, 3)]) 0
    = Some out /\
    forall b', In b' out -> fully_assigned b' /\ unique_units b'.
Proof.
  split; [vm_compute; reflexivity|].
  apply (search_sound [(2, 3); (3, 8); (4, 6); (10, 2); (80, 3)]).
  vm_compute; reflexivity.
Defined.

(** ** Completeness of the search *)

Lemma solution_spec (s : list Z) :
  solution s = true ->
  length s = 81%nat /\
  (forall p, 0 <= p < num_cells -> 1 <= digit_at s p <= 9) /\
  (forall p q, 0 <= p < num_cells -> 0 <= q < num_cells -> p <> q ->
     same_unit p q = true -> digit_at s p <> digit_at s q).
Proof.
  unfold solution. rewrite !andb_true_iff, Nat.eqb_eq.
  intros [[Hlen Hdig] Huni]. split; [assumption|]. split.
  - intros p Hp. pose proof (forallb_range _ _ _ Hdig p Hp) as H.
    unfold dig_assert in H. lia.
  - intros p q Hp Hq Hne Hsu Heq.
    pose proof (forallb_range _ _ _ Huni p Hp) as H. cbv beta in H.
    pose proof (forallb_range _ _ _ H q Hq) as H'. cbv beta in H'.
    rewrite Hsu, Heq, Z.eqb_refl in H'.
    destruct (Z.eqb_spec p q); [contradiction|discriminate].
Qed.

Lemma digits_eq (b : Board) (s : list Z) :
  length s = 81%nat ->
  (forall p, 0 <= p < num_cells -> assigned_ (cell b p) = digit_at s p) ->
  digits b = s.
Proof.
  intros Hlen H. apply (nth_ext _ _ 0 0).
  - unfold digits, positions, range. rewrite !length_map, length_seq. auto.
  - unfold digits, positions, range. rewrite !length_map, length_seq.
    intros n Hn. rewrite map_map.
    set (f := fun x : nat => assigned_ (cell b (0 + Z.of_nat x))).
    rewrite (nth_indep _ 0 (f O)) by (rewrite length_map, length_seq; exact Hn).
    rewrite map_nth, seq_nth by exact Hn. unfold f.
    rewrite H by (unfold num_cells; lia).
    unfold digit_at. f_equal. lia.
Qed.

Lemma assignable_dig_assignable (x : Cell) (d : Z) :
  assignable_dig x d = true -> assignable x = true.
Proof.
  unfold assignable_dig, assignable.
  destruct (Z.eqb_spec (assignable_ x) 0) as [->|]; auto.
Qed.

Lemma branches_try (x : Cell) (try : Z -> option (list Board)) (digs : list Z)
      (out : list Board) (d : Z) :
  branches x try digs = Some out -> In d digs -> assignable_dig x d = true ->
  exists o, try d = Some o.
Proof.
  revert out. induction digs as [|d' digs IH]; intros out Hb [].
  - subst d'. intros Ha. simpl in Hb. rewrite Ha in Hb.
    destruct (try d); [eauto|discriminate].
  - simpl in Hb. destruct (assignable_dig x d').
    + destruct (try d'); [|discriminate].
      destruct (branches x try digs) eqn:Hr; [|discriminate]. eauto.
    + eauto.
Qed.

Lemma completes_assign (s : list Z) (b : Board) (pos : Z) :
  solution s = true -> completes s b pos -> pos <> num_cells ->
  assigned_ (cell b pos) = 0 ->
  completes s (assign b pos (digit_at s pos)) pos.
Proof.
  intros Hs (Hb & Hpos & Hfix & Hcand & Hbefore) Hne Hz.
  destruct (solution_spec s Hs) as (_ & Hdig & Huni).
  assert (Hp : 0 <= pos < num_cells) by lia.
  pose proof (Hdig pos Hp) as Hd.
  split; [rewrite length_assign; exact Hb|]. split; [assumption|].
  split; [|split].
  - intros q Hq. rewrite assigned_assign by assumption.
    destruct (Z.eqb_spec q pos) as [->|]; auto.
  - intros q Hq. rewrite assigned_assign by assumption.
    destruct (Z.eqb_spec q pos) as [->|Hqp]; [lia|]. intros Hqz.
    pose proof (Hdig q Hq).
    rewrite assignable_dig_assign by (assumption || lia).
    rewrite (Hcand q Hq Hqz). cbn [andb].
    destruct (same_unit pos q) eqn:Hsu; auto. cbn [andb].
    destruct (Z.eqb_spec (digit_at s q) (digit_at s pos)) as [Heq|]; auto.
    exfalso. apply (Huni pos q); auto.
  - intros q Hq. rewrite assigned_assign by (assumption || lia).
    destruct (Z.eqb_spec q pos); [lia|]. apply Hbefore, Hq.
Qed.

(** [find] emits every solved grid that the board can be completed to. *)
Lemma find_complete (s : list Z) (fuel : nat) (b : Board) (pos : Z)
      (out : list Board) :
  solution s = true -> completes s b pos -> find fuel b pos = Some out ->
  In s (map digits out).
Proof.
  intros Hs. revert b pos out.
  induction fuel as [|fuel IH]; intros b pos out Hc; [discriminate|].
  rewrite find_S. destruct (Z.eqb_spec pos num_cells) as [->|Hne].
  - intros [= <-]. left. destruct Hc as (Hb & _ & Hfix & _ & Hbefore).
    apply digits_eq; [apply (solution_spec s Hs)|].
    intros p Hp. apply Hfix; auto.
  - destruct (Z.eqb_spec (assigned_ (cell b pos)) 0) as [Hz|Hnz].
    + pose proof Hc as (Hb & Hpos & Hfix & Hcand & Hbefore).
      assert (Hp : 0 <= pos < num_cells) by lia.
      pose proof (Hcand pos Hp Hz) as Ha.
      rewrite (assignable_dig_assignable _ _ Ha). cbn [negb].
      intros Hbr.
      assert (Hd : In (digit_at s pos) (range 1 9)).
      { apply in_range. destruct (solution_spec s Hs) as (_ & Hdig & _).
        specialize (Hdig pos Hp). lia. }
      destruct (branches_try _ _ _ _ _ Hbr Hd Ha) as [o Ho].
      pose proof (IH _ _ _ (completes_assign s b pos Hs Hc Hne Hz) Ho) as Hin.
      apply in_map_iff in Hin. destruct Hin as (b' & Hb' & Hin).
      apply in_map_iff. exists b'. split; [assumption|].
      apply (branches_In _ _ _ _ Hbr). exists (digit_at s pos), o. auto.
    + intros Hf. apply (IH b (pos + 1) out); auto.
      destruct Hc as (Hb & Hpos & Hfix & Hcand & Hbefore).
      split; [assumption|]. split; [lia|]. split; [assumption|].
      split; [assumption|].
      intros q Hq. destruct (Z.eq_dec q pos) as [->|]; [assumption|].
      apply Hbefore. lia.
Qed.

Lemma completes_Board_init (s : list Z) :
  solution s = true -> completes s Board_init 0.
Proof.
  intros Hs. destruct (solution_spec s Hs) as (_ & Hdig & _).
  split; [reflexivity|]. split; [unfold num_cells; lia|]. split; [|split].
  - intros q _ H. rewrite cell_Board_init in H. simpl in H. lia.
  - intros q Hq _. rewrite cell_Board_init.
    assert (H : forallb (assignable_dig Cell_init) (range 1 9) = true)
      by (vm_compute; reflexivity).
    apply (forallb_range _ _ _ H). specialize (Hdig q Hq). lia.
  - intros q Hq. lia.
Qed.

Lemma completesb_spec (s : list Z) (b : Board) :
  completesb s b = true -> completes s b 0.
Proof.
  unfold completesb. rewrite andb_true_iff, Nat.eqb_eq. intros [Hlen H].
  split; [assumption|]. split; [unfold num_cells; lia|]. split; [|split].
  - intros q Hq Hnz. pose proof (forallb_range _ _ _ H q Hq) as H1.
    cbv beta in H1. destruct (Z.eqb_spec (assigned_ (cell b q)) 0); lia.
  - intros q Hq Hz. pose proof (forallb_range _ _ _ H q Hq) as H1.
    cbv beta in H1. rewrite Hz in H1. exact H1.
  - intros q Hq. lia.
Qed.

Lemma solved_grid_solution : solution solved_grid = true.
Proof. vm_compute. reflexivity. Qed.

(** C3: on a freshly constructed board [find(0)] returns and emits at least
    one board, and every board it emits is fully assigned with no digit
    twice in a row, column or box. *)
Theorem search_empty_board :
  exists out, find find_fuel Board_init 0 = Some out /\
    out <> [] /\
    forall b', In b' out -> fully_assigned b' /\ unique_units b'.
Proof.
  destruct (find_total Board_init eq_refl) as [out Hf].
  exists out. split; [exact Hf|]. split.
  - intros ->.
    exact (find_complete solved_grid _ _ _ _ solved_grid_solution
             (completes_Board_init _ solved_grid_solution) Hf).
  - apply (find_sound _ _ _ consistent_Board_init Hf).
Qed.

(** ** The order of the emissions *)

Lemma range_cons (lo : Z) (n : nat) : range lo (S n) = lo :: range (lo + 1) n.
Proof.
  unfold range. simpl. f_equal; [lia|].
  rewrite <- seq_shift, map_map. apply map_ext. intros i. lia.
Qed.

Lemma lex_lt_map_range (g1 g2 : Z -> Z) (n : nat) (lo k : Z) :
  lo <= k < lo + Z.of_nat n ->
  (forall i, lo <= i < k -> g1 i = g2 i) -> g1 k < g2 k ->
  lex_lt (map g1 (range lo n)) (map g2 (range lo n)).
Proof.
  revert lo. induction n as [|n IH]; intros lo Hk Heq Hlt; [lia|].
  rewrite range_cons. simpl.
  destruct (Z.eq_dec k lo) as [->|Hne]; [left; assumption|].
  right. split; [apply Heq; lia|]. apply IH; [lia| |assumption].
  intros i Hi. apply Heq. lia.
Qed.

(** The boards emitted by [find] keep the cells before [pos] and the
    assigned cells of the board it started from. *)
Lemma find_keeps (fuel : nat) (b : Board) (pos : Z) (out : list Board) :
  length b = 81%nat -> 0 <= pos <= num_cells -> find fuel b pos = Some out ->
  forall b', In b' out -> forall i, 0 <= i < num_cells ->
    i < pos \/ assigned_ (cell b i) <> 0 ->
    assigned_ (cell b' i) = assigned_ (cell b i).
Proof.
  intros Hb Hpos Hf b' Hin.
  pose (P := fun (b1 : Board) (pos1 : Z) =>
    length b1 = 81%nat /\ pos <= pos1 <= num_cells /\
    forall i, 0 <= i < num_cells -> i < pos \/ assigned_ (cell b i) <> 0 ->
      assigned_ (cell b1 i) = assigned_ (cell b i)).
  assert (H : P b' num_cells).
  { apply (find_emits P) with (fuel := fuel) (b := b) (pos := pos) (out := out);
      auto; unfold P.
    - intros b1 pos1 (H1 & H2 & H3) Hne Hnz. split; [assumption|].
      split; [lia|assumption].
    - intros b1 pos1 d (H1 & H2 & H3) Hne Hz Hd Ha.
      split; [rewrite length_assign; assumption|]. split; [assumption|].
      intros i Hi Hor. rewrite assigned_assign by (assumption || lia).
      destruct (Z.eqb_spec i pos1) as [->|]; [|apply H3; assumption].
      specialize (H3 pos1 Hi Hor). destruct Hor; [lia|congruence].
    - split; [assumption|]. split; [lia|]. auto. }
  apply H.
Qed.

Lemma find_sorted (fuel : nat) (b : Board) (pos : Z) (out : list Board) :
  length b = 81%nat -> 0 <= pos <= num_cells -> find fuel b pos = Some out ->
  StronglySorted before out.
Proof.
  revert b pos out. induction fuel as [|fuel IH]; intros b pos out Hb Hpos;
    [discriminate|].
  rewrite find_S. destruct (Z.eqb_spec pos num_cells) as [->|Hne].
  - intros [= <-]. repeat constructor.
  - destruct (Z.eqb_spec (assigned_ (cell b pos)) 0) as [Hz|Hnz].
    + destruct (negb (assignable (cell b pos))).
      * intros [= <-]. constructor.
      * assert (Hp : 0 <= pos < num_cells) by lia.
        apply branches_sorted.
        -- unfold range. simpl. repeat (constructor; [|repeat constructor; lia]).
           constructor.
        -- intros d o _ Ho. apply (IH _ _ _ (eq_trans (length_assign b pos d) Hb) Hpos Ho).
        -- intros d1 d2 o1 o2 b1 b2 Hd1 Hd2 Hlt H1 H2 Hb1 Hb2.
           apply in_range in Hd1. apply in_range in Hd2.
           pose proof (find_keeps _ _ _ _ (eq_trans (length_assign b pos d1) Hb)
                         Hpos H1 b1 Hb1) as K1.
           pose proof (find_keeps _ _ _ _ (eq_trans (length_assign b pos d2) Hb)
                         Hpos H2 b2 Hb2) as K2.
           unfold before, digits, positions.
           apply lex_lt_map_range with (k := pos).
           ++ unfold num_cells in Hp. lia.
           ++ intros i Hi. rewrite K1, K2 by lia.
              rewrite !assigned_assign by (assumption || lia).
              destruct (Z.eqb_spec i pos); [lia|reflexivity].
           ++ rewrite K1, K2;
                rewrite ?assigned_assign by assumption;
                rewrite ?Z.eqb_refl; try assumption; right; lia.
    + apply IH; [assumption|lia].
Qed.

(** C6: [find(0)] is deterministic and its order is fixed.  On every board
    it returns; every run (whatever fuel lets it return) emits the same
    boards in the same order; and this order is the one of a row-major scan
    with ascending digits: the emitted boards, read row by row, are in
    strictly increasing lexicographic order. *)
Theorem search_order (b : Board) :
  length b = 81%nat ->
  exists out, find find_fuel b 0 = Some out /\
    (forall fuel out', find fuel b 0 = Some out' -> out' = out) /\
    StronglySorted before out.
Proof.
  intros Hb. destruct (find_total b Hb) as [out Hf]. exists out.
  split; [exact Hf|]. split.
  - intros fuel out' Hf'.
    destruct (Nat.le_ge_cases fuel find_fuel) as [Hle|Hge].
    + pose proof (find_mono _ _ _ _ _ Hle Hf') as H. congruence.
    + pose proof (find_mono _ _ _ _ _ Hge Hf) as H. congruence.
  - apply (find_sorted _ _ _ _ Hb) in Hf; [assumption|unfold num_cells; lia].
Qed.

Lemma search_order_witness :
  length Board_init = 81%nat /\
  exists out, find find_fuel Board_init 0 = Some out /\
    (forall fuel out', find fuel Board_init 0 = Some out' -> out' = out) /\
    StronglySorted before out.
Proof.
  split; [reflexivity|]. apply (search_order Board_init). reflexivity.
Defined.

(** ** The reading loop of [main] *)

Lemma run_app (b : Board) (calls1 calls2 : list (Z * Z)) :
  run b (calls1 ++ calls2) = run (run b calls1) calls2.
Proof. unfold run. apply fold_left_app. Qed.

Lemma reader_inv_init : reader_inv reader_init.
Proof.
  split; simpl; auto; [lia|apply consistent_Board_init].
Qed.

Lemma incr_pos_inv (s s' : reader) :
  incr_pos s = Ok s' -> reader_inv s -> reader_inv s'.
Proof.
  unfold incr_pos. destruct (rd_pos s =? INT_MAX); [discriminate|].
  intros [= <-] [H1 H2 H3 H4 H5]. split; simpl; auto. lia.
Qed.

Lemma call_assign_inv (ndebug : bool) (s s' : reader) (dig : Z) :
  call_assign ndebug s dig = Ok s' -> rd_pos s < num_cells -> 0 <= dig <= 9 ->
  reader_inv s -> reader_inv s'.
Proof.
  unfold call_assign.
  destruct (negb ndebug && negb (assign_assert (rd_pos s) dig)); [discriminate|].
  intros [= <-] Hlt Hdig [H1 H2 H3 H4 H5]. split; simpl; auto.
  - rewrite length_assign. assumption.
  - rewrite run_app, <- H3. reflexivity.
  - apply Forall_app. split; [assumption|]. constructor; [|constructor].
    simpl. unfold num_cells in Hlt. lia.
  - intros q Hq. rewrite assigned_assign by (assumption || lia).
    destruct (q =? rd_pos s); [assumption|apply H5, Hq].
Qed.

Lemma read_char_inv (ndebug : bool) (s s' : reader) (c : Z) :
  read_char ndebug s c = Ok s' -> reader_inv s -> reader_inv s'.
Proof.
  unfold read_char. destruct (c =? 95); [apply incr_pos_inv|].
  destruct (isdigit c) eqn:Hd; [|intros [= <-]; auto].
  destruct (Z.ltb_spec (rd_pos s) num_cells) as [Hlt|Hge]; simpl.
  - destruct (call_assign ndebug s (c - 48)) as [s1| |] eqn:Hc; simpl;
      try discriminate.
    intros Hi Hinv. apply (incr_pos_inv _ _ Hi).
    apply (call_assign_inv _ _ _ _ Hc Hlt); [|exact Hinv].
    unfold isdigit in Hd. lia.
  - apply incr_pos_inv.
Qed.

Lemma read_loop_inv (ndebug : bool) (input : string) (s s' : reader) :
  read_loop ndebug s input = Ok s' -> reader_inv s -> reader_inv s'.
Proof.
  revert s. induction input as [|a rest IH]; intros s; simpl.
  - intros [= <-]; auto.
  - destruct (read_char ndebug s (char_code a)) as [s1| |] eqn:Hc; simpl;
      try discriminate.
    intros Hl Hinv. apply (IH s1 Hl). apply (read_char_inv _ _ _ _ Hc Hinv).
Qed.

(** A character other than ['_'] and the digits leaves the state as it is. *)
Lemma read_char_other (ndebug : bool) (s : reader) (c : Z) :
  c <> 95 -> isdigit c = false -> read_char ndebug s c = Ok s.
Proof.
  intros Hc Hd. unfold read_char. rewrite Hd.
  destruct (Z.eqb_spec c 95); [contradiction|reflexivity].
Qed.

(** The placeholder ['_'] only advances the counter. *)
Lemma read_char_placeholder (ndebug : bool) (s : reader) :
  read_char ndebug s 95 = incr_pos s.
Proof. reflexivity. Qed.

(** A digit ['1'] to ['9'] read at a counter below 81 is assigned there, and
    the counter advances. *)
Lemma read_char_digit (ndebug : bool) (s : reader) (c : Z) :
  49 <= c <= 57 -> 0 <= rd_pos s < num_cells ->
  read_char ndebug s c =
  incr_pos {| rd_board := assign (rd_board s) (rd_pos s) (c - 48);
              rd_pos := rd_pos s;
              rd_calls := rd_calls s ++ [(rd_pos s, c - 48)] |}.
Proof.
  intros Hc Hp. unfold read_char, isdigit, call_assign.
  destruct (Z.eqb_spec c 95); [lia|].
  replace ((48 <=? c) && (c <=? 57)) with true
    by (symmetry; apply andb_true_intro; split; apply Z.leb_le; lia).
  destruct (Z.ltb_spec (rd_pos s) num_cells); [|lia].
  replace (assign_assert (rd_pos s) (c - 48)) with true.
  - rewrite andb_false_r. reflexivity.
  - symmetry. apply assign_assert_spec. lia.
Qed.

(** C7: the claim lets only ['1'] to ['9'] and ['_'] advance the counter,
    and the program departs from it on the character ['0'], which [isdigit]
    accepts.  On the input [0], a build with -DNDEBUG advances the counter
    to 1 and issues [assign(0, 0)], against the assertion of [assign]; a
    build with assertions stops on that assertion. *)
Lemma parser_counts_zero_digit :
  (exists s, read_loop true reader_init "0" = Ok s /\
     rd_pos s = 1 /\ rd_calls s = [(0, 0)]) /\
  assign_assert 0 0 = false /\
  read_loop false reader_init "0" = AssertionFailure.
Proof.
  split; [|split; reflexivity].
  eexists. split; [vm_compute; reflexivity|]. split; reflexivity.
Qed.

(** As long as the counter has not overflowed, the calls of [assign] issued
    by the reading loop have their position in [0,80], and the board is the
    result of exactly these calls. *)
Lemma reader_calls_in_board (ndebug : bool) (input : string) (s : reader) :
  read_loop ndebug reader_init input = Ok s ->
  Forall (fun c => 0 <= fst c <= 80) (rd_calls s) /\
  rd_board s = run Board_init (rd_calls s).
Proof.
  intros H. destruct (read_loop_inv _ _ _ _ H reader_inv_init) as [H1 H2 H3 H4 _].
  split; assumption.
Qed.

(** The reading loop steps over [n] placeholders by adding [n] to the
    counter, as long as the counter can hold the sum. *)
Lemma read_loop_placeholders (ndebug : bool) (n : N) (rest : string) (s0 : reader) :
  rd_pos s0 + Z.of_N n <= INT_MAX ->
  read_loop ndebug s0 (placeholders n rest) =
  read_loop ndebug {| rd_board := rd_board s0; rd_pos := rd_pos s0 + Z.of_N n;
                      rd_calls := rd_calls s0 |} rest.
Proof.
  revert s0. induction n as [|n IH] using N.peano_ind; intros s0 H.
  - destruct s0 as [b0 p0 c0]. cbn. rewrite Z.add_0_r. reflexivity.
  - rewrite N2Z.inj_succ in H |- *.
    unfold placeholders. rewrite N.iter_succ. fold (placeholders n rest).
    cbn [read_loop]. change (char_code "_") with 95.
    rewrite read_char_placeholder. unfold incr_pos.
    destruct (Z.eqb_spec (rd_pos s0) INT_MAX); [lia|]. cbv [bind].
    rewrite IH by (cbn [rd_pos]; lia). cbn [rd_board rd_pos rd_calls].
    replace (rd_pos s0 + 1 + Z.of_N n) with (rd_pos s0 + Z.succ (Z.of_N n)) by lia.
    reflexivity.
Qed.

Lemma placeholders_succ (n : N) (rest : string) :
  placeholders (N.succ n) rest = placeholders n (String "_" rest).
Proof. unfold placeholders. apply N.iter_succ_r. Qed.

(** C10: the claim fails where the counter overflows.  [pos] is an [int]
    that only the test [pos < num_cells] guards.  After 2^31 - 1 placeholders
    it stands at [INT_MAX] and no call of [assign] has been issued; the next
    cell of the stream overflows it.  So the run on 2^31 placeholders
    followed by a digit has no defined behaviour when it reaches the digit:
    nothing keeps the position of the call for that digit inside [0,80]. *)
Theorem parser_counter_overflows (ndebug : bool) :
  (exists s, read_loop ndebug reader_init (placeholders (2 ^ 31 - 1) "") = Ok s /\
     rd_pos s = INT_MAX /\ rd_calls s = []) /\
  read_loop ndebug reader_init (placeholders (2 ^ 31) "5") = Undefined.
Proof.
  assert (Hmax : rd_pos reader_init + Z.of_N (2 ^ 31 - 1) <= INT_MAX)
    by (vm_compute; discriminate).
  split.
  - eexists. rewrite (read_loop_placeholders ndebug _ _ _ Hmax). cbn [read_loop].
    split; [reflexivity|]. split; reflexivity.
  - replace (2 ^ 31)%N with (N.succ (2 ^ 31 - 1)) by reflexivity.
    rewrite placeholders_succ, (read_loop_placeholders ndebug _ _ _ Hmax).
    reflexivity.
Qed.

(** C8: when the stream is exhausted, a counter other than 81 makes [main]
    throw, without any emission of [find]; a counter of 81 makes it run
    [find(0)] on the board that was read. *)
Theorem cell_count_check (ndebug : bool) (input : string) (s : reader) :
  read_loop ndebug reader_init input = Ok s ->
  (rd_pos s <> num_cells -> main ndebug input = Ok (Thrown (rd_pos s))) /\
  (rd_pos s = num_cells ->
     exists out, find find_fuel (rd_board s) 0 = Some out /\
       main ndebug input = Ok (Returned out)).
Proof.
  intros H. unfold main. rewrite H. cbv [bind]. split.
  - intros Hne. destruct (Z.eqb_spec (rd_pos s) num_cells); [contradiction|].
    reflexivity.
  - intros Heq. rewrite Heq, Z.eqb_refl. cbv [negb].
    destruct (find_total (rd_board s)
                (ri_length _ (read_loop_inv _ _ _ _ H reader_inv_init)))
      as [out Hf].
    exists out. rewrite Hf. auto.
Qed.

Lemma cell_count_check_witness :
  exists s, read_loop true reader_init "12_ 4" = Ok s /\
    (rd_pos s <> num_cells -> main true "12_ 4" = Ok (Thrown (rd_pos s))) /\
    (rd_pos s = num_cells ->
       exists out, find find_fuel (rd_board s) 0 = Some out /\
         main true "12_ 4" = Ok (Returned out)).
Proof.
  eexists. split; [vm_compute; reflexivity|].
  apply (cell_count_check true "12_ 4"). vm_compute. reflexivity.
Defined.

(** ** The rendering of a board *)

Local Open Scope string_scope.

Lemma append_assoc (s1 s2 s3 : string) : (s1 ++ s2) ++ s3 = s1 ++ (s2 ++ s3).
Proof. induction s1 as [|a s1 IH]; simpl; [reflexivity|]. rewrite IH. reflexivity. Qed.

Lemma append_nil_r (s : string) : s ++ "" = s.
Proof. induction s as [|a s IH]; simpl; [reflexivity|]. rewrite IH. reflexivity. Qed.

(** A loop that appends [g a] to the stream for each [a] of [l] appends
    their concatenation. *)
Lemma fold_left_append {A : Type} (F : string -> A -> string) (g : A -> string)
      (l : list A) (out : string) :
  (forall out a, In a l -> F out a = out ++ g a) ->
  fold_left F l out = out ++ fold_right (fun a acc => g a ++ acc) "" l.
Proof.
  revert out. induction l as [|a l IH]; intros out H; simpl.
  - symmetry. apply append_nil_r.
  - rewrite IH by (intros; apply H; simpl; auto).
    rewrite H by (simpl; auto). apply append_assoc.
Qed.

Lemma string_of_int_digit (d : Z) :
  (1 <= d <= 9)%Z -> string_of_int d = String (digit_char d) "".
Proof.
  intros H.
  assert (Hd : (d = 1 \/ d = 2 \/ d = 3 \/ d = 4 \/ d = 5 \/ d = 6 \/ d = 7 \/
                d = 8 \/ d = 9)%Z) by lia.
  repeat (destruct Hd as [->|Hd]; [reflexivity|]). subst d. reflexivity.
Qed.

Lemma print_cell_digit (b : Board) (r c : Z) (out : string) :
  (1 <= assigned_ (cell_rc b r c) <= 9)%Z ->
  print_cell b r out c = out ++ cell_text b r c.
Proof.
  intros H. unfold print_cell, cell_text, digit_text.
  destruct (Z.eqb_spec (assigned_ (cell_rc b r c)) 0) as [H0|_]; [lia|].
  cbv [negb]. rewrite string_of_int_digit by assumption.
  destruct ((c =? 2)%Z || (c =? 5)%Z); [apply append_assoc|reflexivity].
Qed.

Lemma print_to_full (b : Board) (out : string) :
  fully_assigned b -> print_to b out = out ++ rendering_spec b.
Proof.
  intros Hfull. unfold print_to.
  rewrite (fold_left_append _
             (fun r => fold_right (fun c acc => cell_text b r c ++ acc) "" (upto 9)
                       ++ newline)).
  - rewrite append_assoc. reflexivity.
  - intros out' r Hr. apply in_range in Hr.
    rewrite (fold_left_append _ (cell_text b r)).
    + apply append_assoc.
    + intros out'' c Hc. apply in_range in Hc.
      apply print_cell_digit, Hfull. unfold num_cells. simpl in *. lia.
Qed.

Lemma find_emits_full (fuel : nat) (b0 : Board) (out : list Board) :
  length b0 = 81%nat -> digits_ok b0 -> find fuel b0 0%Z = Some out ->
  forall b, In b out -> fully_assigned b.
Proof.
  intros Hb Hdig Hf b Hin.
  pose (P := fun (b1 : Board) (pos : Z) =>
    length b1 = 81%nat /\ digits_ok b1 /\ (0 <= pos <= num_cells)%Z /\
    forall i, (0 <= i < pos)%Z -> assigned_ (cell b1 i) <> 0%Z).
  assert (H : P b num_cells).
  { apply (find_emits P) with (fuel := fuel) (b := b0) (pos := 0%Z) (out := out);
      auto; unfold P.
    - intros b1 pos (H1 & H2 & H3 & H4) Hne Hnz.
      split; [assumption|]. split; [assumption|]. split; [lia|].
      intros i Hi. destruct (Z.eq_dec i pos) as [->|]; [assumption|].
      apply H4. lia.
    - intros b1 pos d (H1 & H2 & H3 & H4) Hne Hz Hd Ha.
      split; [rewrite length_assign; assumption|]. split; [|split; [assumption|]].
      + intros q Hq. rewrite assigned_assign by (assumption || lia).
        destruct (q =? pos)%Z; [lia|apply H2, Hq].
      + intros i Hi. rewrite assigned_assign by (assumption || lia).
        destruct (Z.eqb_spec i pos); [lia|]. apply H4, Hi.
    - split; [assumption|]. split; [assumption|].
      split; [unfold num_cells; lia|]. intros i Hi. lia. }
  destruct H as (_ & H2 & _ & H4). intros p Hp.
  specialize (H2 p Hp). specialize (H4 p Hp). lia.
Qed.

Lemma digits_okb_spec (b : Board) : digits_okb b = true -> digits_ok b.
Proof.
  intros H p Hp. pose proof (forallb_range _ _ _ H p Hp) as H1.
  cbv beta in H1. lia.
Qed.

(** C9: every board emitted by [find(0)], started on a board whose cells
    hold 0 or a digit, is printed as 9 lines followed by a blank line; line
    [r] holds the 9 digits of row [r] in column order, with a single space
    after the 3rd and after the 6th digit. *)
Theorem print_format (b0 : Board) (fuel : nat) (out : list Board) (b : Board) :
  length b0 = 81%nat -> digits_ok b0 -> find fuel b0 0%Z = Some out -> In b out ->
  print b = rendering_spec b.
Proof.
  intros Hb Hdig Hf Hin. unfold print.
  rewrite print_to_full by (apply (find_emits_full fuel b0 out); assumption).
  reflexivity.
Qed.

Lemma print_format_witness :
  length solved_board = 81%nat /\ digits_ok solved_board /\
  find find_fuel solved_board 0%Z = Some [solved_board] /\
  In solved_board [solved_board] /\
  print solved_board = rendering_spec solved_board.
Proof.
  assert (H1 : length solved_board = 81%nat) by reflexivity.
  assert (H2 : digits_ok solved_board)
    by (apply digits_okb_spec; vm_compute; reflexivity).
  assert (H3 : find find_fuel solved_board 0%Z = Some [solved_board])
    by (vm_compute; reflexivity).
  assert (H4 : In solved_board [solved_board]) by (left; reflexivity).
  split; [exact H1|]. split; [exact H2|]. split; [exact H3|]. split; [exact H4|].
  exact (print_format solved_board find_fuel [solved_board] solved_board H1 H2 H3 H4).
Defined.

(** The text printed for the solved grid of the header. *)
Example print_solved_board :
  print solved_board =
  "753 862 419" ++ newline ++ "429 175 683" ++ newline ++ "186 439 725" ++ newline ++
  "692 358 147" ++ newline ++ "347 691 852" ++ newline ++ "815 724 396" ++ newline ++
  "538 916 274" ++ newline ++ "274 583 961" ++ newline ++ "961 247 538" ++ newline ++
  newline.
Proof. vm_compute. reflexivity. Qed.


(** Whatever [main] emits is printed in this format. *)
Lemma main_prints_renderings (ndebug : bool) (input : string) (out : list Board)
      (b : Board) :
  main ndebug input = Ok (Returned out) -> In b out -> print b = rendering_spec b.
Proof.
  unfold main.
  destruct (read_loop ndebug reader_init input) as [s| |] eqn:Hr; cbv [bind];
    try discriminate.
  destruct (negb (rd_pos s =? num_cells)%Z); [discriminate|].
  destruct (find find_fuel (rd_board s) 0%Z) as [out'|] eqn:Hf; [|discriminate].
  intros [= <-] Hin.
  destruct (read_loop_inv _ _ _ _ Hr reader_inv_init) as [H1 _ _ _ H5].
  unfold print. rewrite print_to_full; [reflexivity|].
  apply (find_emits_full find_fuel (rd_board s) out'); assumption.
Qed.

(** The run shown in the header of [sudoku.cpp]: on [sudoku1.txt] the
    program reads 81 cells and the solved grid of the header is among the
    boards it prints. *)
Example main_sudoku1 :
  exists out, main true sudoku1 = Ok (Returned out) /\ In solved_grid (map digits out).
Proof.
  assert (Hr : exists s, read_loop true reader_init sudoku1 = Ok s /\
                 rd_pos s = num_cells /\ length (rd_board s) = 81%nat /\
                 completesb solved_grid (rd_board s) = true).
  { eexists. split; [vm_compute; reflexivity|].
    split; [|split]; vm_compute; reflexivity. }
  destruct Hr as (s & Hr & Hpos & Hlen & Hc).
  destruct (find_total (rd_board s) Hlen) as [out Hf].
  exists out. split.
  - unfold main. rewrite Hr. cbv [bind]. rewrite Hpos, Z.eqb_refl. cbv [negb].
    rewrite Hf. reflexivity.
  - apply (find_complete solved_grid find_fuel (rd_board s) 0%Z out
             solved_grid_solution (completesb_spec _ _ Hc) Hf).
Qed.

Local Close Scope string_scope.

(** * Further properties of the search *)

Lemma extends_to_assign (s : list Z) (b : Board) (p : Z) :
  solution s = true -> extends_to s b -> 0 <= p < num_cells ->
  extends_to s (assign b p (digit_at s p)).
Proof.
  intros Hs (Hb & Hfix & Hcand) Hp.
  destruct (solution_spec s Hs) as (_ & Hdig & Huni).
  pose proof (Hdig p Hp) as Hd.
  split; [rewrite length_assign; exact Hb|]. split.
  - intros q Hq. rewrite assigned_assign by assumption.
    destruct (Z.eqb_spec q p) as [->|]; auto.
  - intros q Hq. rewrite assigned_assign by assumption.
    destruct (Z.eqb_spec q p) as [->|Hqp]; [lia|]. intros Hqz.
    pose proof (Hdig q Hq).
    rewrite assignable_dig_assign by (assumption || lia).
    rewrite (Hcand q Hq Hqz). cbn [andb].
    destruct (same_unit p q) eqn:Hsu; auto. cbn [andb].
    destruct (Z.eqb_spec (digit_at s q) (digit_at s p)) as [Heq|]; auto.
    exfalso. apply (Huni p q); auto.
Qed.

Lemma extends_to_run (s : list Z) (calls : list (Z * Z)) (b : Board) :
  solution s = true -> givens_of s calls = true -> extends_to s b ->
  extends_to s (run b calls).
Proof.
  intros Hs. revert b. induction calls as [|[p d] calls IH]; intros b Hg Hb; simpl; auto.
  simpl in Hg. rewrite !andb_true_iff in Hg. destruct Hg as [[Hp Hd] Hg].
  apply Z.eqb_eq in Hd. subst d. apply IH; [exact Hg|].
  apply extends_to_assign; auto. unfold pos_assert in Hp. lia.
Qed.

Lemma extends_to_completes (s : list Z) (b : Board) :
  extends_to s b -> completes s b 0.
Proof.
  intros (Hb & Hfix & Hcand). split; [assumption|].
  split; [unfold num_cells; lia|]. split; [assumption|]. split; [assumption|].
  intros q Hq. lia.
Qed.

(** X1: the search misses no solution.  When the board was filled with
    givens taken from a solved grid, [find(0)] emits that grid. *)
Theorem search_complete (s : list Z) (calls : list (Z * Z)) :
  solution s = true -> givens_of s calls = true ->
  exists out, find find_fuel (run Board_init calls) 0 = Some out /\
    In s (map digits out).
Proof.
  intros Hs Hg.
  assert (He : extends_to s (run Board_init calls)).
  { apply extends_to_run; auto.
    destruct (completes_Board_init s Hs) as (H1 & _ & H3 & H4 & _).
    split; [assumption|]. split; assumption. }
  destruct (find_total _ (proj1 He)) as [out Hf]. exists out.
  split; [exact Hf|].
  apply (find_complete s _ _ _ _ Hs (extends_to_completes _ _ He) Hf).
Qed.

Lemma search_complete_witness :
  solution solved_grid = true /\
  givens_of solved_grid [(2, 3); (3, 8); (4, 6); (10, 2); (80, 8)] = true /\
  exists out,
    find find_fuel (run Board_init [(2, 3); (3, 8); (4, 6); (10, 2); (80, 8)]) 0
    = Some out /\ In solved_grid (map digits out).
Proof.
  split; [vm_compute; reflexivity|]. split; [vm_compute; reflexivity|].
  apply (search_complete solved_grid [(2, 3); (3, 8); (4, 6); (10, 2); (80, 8)]);
    vm_compute; reflexivity.
Defined.

(** X2: the search never changes an assigned cell: every emitted board
    holds, in each cell that was assigned when [find(0)] started, the digit
    it held then. *)
Theorem search_keeps_givens (b : Board) (fuel : nat) (out : list Board)
        (b' : Board) (q : Z) :
  length b = 81%nat -> find fuel b 0 = Some out -> In b' out ->
  0 <= q < num_cells -> assigned_ (cell b q) <> 0 ->
  assigned_ (cell b' q) = assigned_ (cell b q).
Proof.
  intros Hb Hf Hin Hq Hnz.
  apply (find_keeps fuel b 0 out Hb); auto. unfold num_cells; lia.
Qed.

Lemma search_keeps_givens_witness :
  length four_fold_puzzle = 81%nat /\ 0 <= 0 < num_cells /\
  assigned_ (cell four_fold_puzzle 0) <> 0 /\
  assigned_ (cell four_fold_puzzle 1) = 0 /\
  exists out, find find_fuel four_fold_puzzle 0 = Some out /\
    length out = 4%nat /\
    forall b', In b' out ->
      assigned_ (cell b' 0) = assigned_ (cell four_fold_puzzle 0).
Proof.
  assert (H1 : length four_fold_puzzle = 81%nat) by reflexivity.
  assert (H2 : 0 <= 0 < num_cells) by (unfold num_cells; lia).
  assert (H3 : assigned_ (cell four_fold_puzzle 0) <> 0) by (vm_compute; discriminate).
  split; [exact H1|]. split; [exact H2|]. split; [exact H3|].
  split; [vm_compute; reflexivity|].
  eexists. split; [vm_compute; reflexivity|]. split; [reflexivity|].
  intros b' Hin.
  refine (search_keeps_givens four_fold_puzzle find_fuel _ b' 0 H1 _ Hin H2 H3).
  vm_compute. reflexivity.
Defined.

Lemma lex_lt_irrefl (l : list Z) : ~ lex_lt l l.
Proof.
  induction l as [|x l IH]; simpl; [tauto|]. intros [H|[_ H]]; [lia|auto].
Qed.

Lemma sorted_before_NoDup (out : list Board) :
  StronglySorted before out -> NoDup (map digits out).
Proof.
  induction out as [|b out IH]; intros H; simpl; [constructor|].
  apply StronglySorted_inv in H. destruct H as [Hs Hall].
  constructor; [|apply IH, Hs].
  intros Hin. apply in_map_iff in Hin. destruct Hin as (b' & Heq & Hb').
  rewrite Forall_forall in Hall. specialize (Hall b' Hb').
  unfold before in Hall. rewrite Heq in Hall. apply (lex_lt_irrefl _ Hall).
Qed.

(** X3: the search emits no grid twice: the digit sequences of the emitted
    boards are pairwise different. *)
Theorem search_no_duplicates (b : Board) (fuel : nat) (out : list Board) :
  length b = 81%nat -> find fuel b 0 = Some out -> NoDup (map digits out).
Proof.
  intros Hb Hf. apply sorted_before_NoDup.
  apply (find_sorted fuel b 0 out Hb); [unfold num_cells; lia|exact Hf].
Qed.

Lemma search_no_duplicates_witness :
  length four_fold_puzzle = 81%nat /\
  exists out, find find_fuel four_fold_puzzle 0 = Some out /\
    length out = 4%nat /\ NoDup (map digits out).
Proof.
  assert (H1 : length four_fold_puzzle = 81%nat) by reflexivity.
  split; [exact H1|].
  eexists. split; [vm_compute; reflexivity|]. split; [reflexivity|].
  apply (search_no_duplicates four_fold_puzzle find_fuel _ H1).
  vm_compute. reflexivity.
Defined.

(** X4: an empty cell without candidates kills the search.  When some
    empty cell of the board has no candidate left, [find(0)] emits nothing,
    wherever that cell lies. *)
Theorem search_dead_cell (b : Board) (q : Z) (fuel : nat) (out : list Board) :
  length b = 81%nat -> 0 <= q < num_cells ->
  assigned_ (cell b q) = 0 -> candidates (cell b q) = [] ->
  find fuel b 0 = Some out -> out = [].
Proof.
  intros Hb Hq Hz Hc Hf.
  pose (P := fun (b1 : Board) (pos : Z) =>
    length b1 = 81%nat /\ 0 <= pos <= q /\
    assigned_ (cell b1 q) = 0 /\ candidates (cell b1 q) = []).
  assert (H : forall b', In b' out -> P b' num_cells).
  { apply (find_emits P) with (fuel := fuel) (b := b) (pos := 0); unfold P.
    - intros b1 pos (H1 & H2 & H3 & H4) Hne Hnz. split; [assumption|].
      split; [|split; assumption].
      destruct (Z.eq_dec pos q) as [->|]; [contradiction|lia].
    - intros b1 pos d (H1 & H2 & H3 & H4) Hne Hz1 Hd Ha.
      destruct (Z.eq_dec pos q) as [->|Hpq].
      + exfalso. assert (Hin : In d (candidates (cell b1 q)))
          by (apply in_candidates; auto).
        rewrite H4 in Hin. exact Hin.
      + split; [rewrite length_assign; assumption|]. split; [assumption|].
        split.
        * rewrite assigned_assign by (assumption || lia).
          destruct (Z.eqb_spec q pos); [congruence|assumption].
        * rewrite candidates_assign by (assumption || lia).
          rewrite H4. destruct (same_unit pos q); reflexivity.
    - split; [assumption|]. split; [lia|]. split; assumption.
    - exact Hf. }
  destruct out as [|b' out]; [reflexivity|].
  destruct (H b' (or_introl eq_refl)) as (_ & H2 & _). lia.
Qed.

Lemma search_dead_cell_witness :
  let b := run Board_init
             [(1, 1); (2, 2); (3, 3); (4, 4); (5, 5); (6, 6); (7, 7); (8, 8); (9, 9)] in
  length b = 81%nat /\ 0 <= 0 < num_cells /\
  assigned_ (cell b 0) = 0 /\ candidates (cell b 0) = [] /\
  find find_fuel b 0 = Some [] /\ @nil Board = [].
Proof.
  intros b.
  assert (H1 : length b = 81%nat) by reflexivity.
  assert (H2 : 0 <= 0 < num_cells) by (unfold num_cells; lia).
  assert (H3 : assigned_ (cell b 0) = 0) by (vm_compute; reflexivity).
  assert (H4 : candidates (cell b 0) = []) by (vm_compute; reflexivity).
  assert (H5 : find find_fuel b 0 = Some []) by (vm_compute; reflexivity).
  repeat (split; [assumption|]).
  exact (search_dead_cell b 0 find_fuel [] H1 H2 H3 H4 H5).
Defined.

Lemma all_assigned_spec (b : Board) :
  all_assigned b = true ->
  forall p, 0 <= p < num_cells -> assigned_ (cell b p) <> 0.
Proof.
  intros H p Hp. pose proof (forallb_range _ _ _ H p Hp) as H1.
  cbv beta in H1. destruct (Z.eqb_spec (assigned_ (cell b p)) 0); [discriminate|auto].
Qed.

Lemma find_scan_assigned (b : Board) (fuel : nat) (pos : Z) :
  (forall p, 0 <= p < num_cells -> assigned_ (cell b p) <> 0) ->
  0 <= pos <= num_cells -> num_cells - pos + 1 <= Z.of_nat fuel ->
  find fuel b pos = Some [b].
Proof.
  intros Hall. revert pos. induction fuel as [|fuel IH]; intros pos Hpos Hfuel; [lia|].
  rewrite find_S. destruct (Z.eqb_spec pos num_cells) as [|Hne]; [reflexivity|].
  destruct (Z.eqb_spec (assigned_ (cell b pos)) 0) as [Hz|_].
  - exfalso. apply (Hall pos); [lia|assumption].
  - apply IH; lia.
Qed.

(** X5: a board without empty cell is emitted as it is, and alone; the
    search does not test whether its digits respect the rows, columns and
    boxes. *)
Theorem search_full_board (b : Board) :
  all_assigned b = true -> find find_fuel b 0 = Some [b].
Proof.
  intros H. apply find_scan_assigned.
  - apply all_assigned_spec, H.
  - unfold num_cells. lia.
  - unfold num_cells, find_fuel. lia.
Qed.

Lemma search_full_board_witness :
  let ones := repeat {| assigned_ := 1; assignable_ := 0 |} 81 in
  all_assigned ones = true /\ find find_fuel ones 0 = Some [ones].
Proof.
  intros ones. split; [vm_compute; reflexivity|].
  apply (search_full_board ones). vm_compute. reflexivity.
Defined.

(** * Further properties of [assign] and of the cells *)

Lemma Cell_ext (x y : Cell) :
  assigned_ x = assigned_ y -> assignable_ x = assignable_ y -> x = y.
Proof. destruct x, y. simpl. intros -> ->. reflexivity. Qed.

(** Two boards of 81 cells with the same cells are the same board. *)
Lemma Board_ext (b1 b2 : Board) :
  length b1 = 81%nat -> length b2 = 81%nat ->
  (forall q, 0 <= q < num_cells -> cell b1 q = cell b2 q) -> b1 = b2.
Proof.
  intros H1 H2 H. apply (nth_ext _ _ Cell_init Cell_init); [congruence|].
  intros n Hn. specialize (H (Z.of_nat n)). unfold cell in H.
  replace (0 <=? Z.of_nat n) with true in H by (symmetry; apply Z.leb_le; lia).
  rewrite Nat2Z.id in H. apply H. unfold num_cells. lia.
Qed.

(** X6: [assign(p, d)] writes the digit [d] into the cell [p] and leaves the
    digit of every other cell as it was; the board keeps its 81 cells. *)
Theorem assign_sets_digit (b : Board) (p d : Z) :
  length b = 81%nat -> 0 <= p < num_cells ->
  length (assign b p d) = 81%nat /\
  assigned_ (cell (assign b p d) p) = d /\
  forall q, 0 <= q < num_cells -> q <> p ->
    assigned_ (cell (assign b p d) q) = assigned_ (cell b q).
Proof.
  intros Hb Hp. split; [rewrite length_assign; exact Hb|]. split.
  - rewrite assigned_assign by assumption. rewrite Z.eqb_refl. reflexivity.
  - intros q Hq Hne. rewrite assigned_assign by assumption.
    destruct (Z.eqb_spec q p); [contradiction|reflexivity].
Qed.

Lemma assign_sets_digit_witness :
  length Board_init = 81%nat /\ 0 <= 13 < num_cells /\
  length (assign Board_init 13 4) = 81%nat /\
  assigned_ (cell (assign Board_init 13 4) 13) = 4 /\
  forall q, 0 <= q < num_cells -> q <> 13 ->
    assigned_ (cell (assign Board_init 13 4) q) = assigned_ (cell Board_init q).
Proof.
  assert (H1 : length Board_init = 81%nat) by reflexivity.
  assert (H2 : 0 <= 13 < num_cells) by (unfold num_cells; lia).
  split; [exact H1|]. split; [exact H2|].
  exact (assign_sets_digit Board_init 13 4 H1 H2).
Defined.

(** X7: calls of [assign] on two different cells commute: the board does not
    depend on the order in which the two digits were written. *)
Theorem assign_commutes (b : Board) (p d q e : Z) :
  length b = 81%nat -> 0 <= p < num_cells -> 0 <= q < num_cells -> p <> q ->
  assign (assign b p d) q e = assign (assign b q e) p d.
Proof.
  intros Hb Hp Hq Hne.
  apply Board_ext; [rewrite !length_assign; exact Hb ..|].
  intros r Hr. apply Cell_ext.
  - rewrite !assigned_assign by (rewrite ?length_assign; assumption).
    destruct (Z.eqb_spec r q), (Z.eqb_spec r p); try reflexivity.
    congruence.
  - rewrite !assignable_assign by (rewrite ?length_assign; assumption).
    unfold cant_assign. cbn [assignable_].
    rewrite !assignable_assign by assumption.
    unfold cant_assign. cbn [assignable_].
    destruct (same_unit q r), (same_unit p r); try reflexivity.
    rewrite <- !Z.land_assoc. f_equal. apply Z.land_comm.
Qed.

Lemma assign_commutes_witness :
  length Board_init = 81%nat /\ 0 <= 3 < num_cells /\ 0 <= 5 < num_cells /\
  3 <> 5 /\
  assign (assign Board_init 3 7) 5 2 = assign (assign Board_init 5 2) 3 7.
Proof.
  assert (H1 : length Board_init = 81%nat) by reflexivity.
  assert (H2 : 0 <= 3 < num_cells) by (unfold num_cells; lia).
  assert (H3 : 0 <= 5 < num_cells) by (unfold num_cells; lia).
  assert (H4 : 3 <> 5) by lia.
  repeat (split; [assumption|]).
  exact (assign_commutes Board_init 3 7 5 2 H1 H2 H3 H4).
Defined.

Lemma testbit_1022 (i : Z) : Z.testbit 1022 i = true -> 1 <= i <= 9.
Proof.
  intros H. destruct (Z.lt_ge_cases i 0) as [Hneg|Hpos].
  - rewrite Z.testbit_neg_r in H by assumption. discriminate.
  - destruct (Z.le_gt_cases i 9) as [Hle|Hgt].
    + destruct (Z.eq_dec i 0) as [->|]; [discriminate H|lia].
    + rewrite Z.bits_above_log2 in H; [discriminate| lia |].
      change (Z.log2 1022) with 9. lia.
Qed.

Lemma mask_in_digits_empty (x : Cell) :
  mask_in_digits x -> candidates x = [] -> assignable_ x = 0.
Proof.
  unfold mask_in_digits. intros Hm Hc. rewrite <- Hm.
  apply Z.bits_inj'. intros i Hi. rewrite Z.land_spec, Z.bits_0.
  destruct (Z.testbit 1022 i) eqn:Hb; [|apply andb_false_r].
  apply testbit_1022 in Hb. rewrite andb_true_r.
  rewrite <- assignable_dig_testbit by lia.
  destruct (assignable_dig x i) eqn:Ha; [|reflexivity].
  assert (Hin : In i (candidates x)) by (apply in_candidates; auto).
  rewrite Hc in Hin. destruct Hin.
Qed.

Lemma mask_in_digits_cant_assign (d : Z) (x : Cell) :
  mask_in_digits x -> mask_in_digits (cant_assign d x).
Proof.
  unfold mask_in_digits, cant_assign. cbn [assignable_]. intros H.
  rewrite <- Z.land_assoc, (Z.land_comm _ 1022), Z.land_assoc, H. reflexivity.
Qed.

Lemma mask_in_digits_modify_nth (f : Cell -> Cell) (l : list Cell) (n : nat) :
  (forall x, mask_in_digits x -> mask_in_digits (f x)) ->
  Forall mask_in_digits l -> Forall mask_in_digits (modify_nth n f l).
Proof.
  intros Hf. revert n. induction l as [|x l IH]; intros [|n] H; simpl; auto;
    apply Forall_cons_iff in H; destruct H as [Hx Hl]; constructor; auto.
Qed.

Lemma mask_in_digits_modify (f : Cell -> Cell) (b : Board) (pos : Z) :
  (forall x, mask_in_digits x -> mask_in_digits (f x)) ->
  Forall mask_in_digits b -> Forall mask_in_digits (modify b pos f).
Proof.
  intros Hf H. unfold modify. destruct (0 <=? pos); auto.
  apply mask_in_digits_modify_nth; assumption.
Qed.

Lemma mask_in_digits_assign (b : Board) (p d : Z) :
  Forall mask_in_digits b -> Forall mask_in_digits (assign b p d).
Proof.
  intros H. rewrite assign_modify_all. unfold modify_all.
  generalize (touched p). intros l.
  assert (H0 : Forall mask_in_digits (modify b p (set_assigned d)))
    by (apply mask_in_digits_modify; auto).
  revert H0. generalize (modify b p (set_assigned d)). clear H.
  induction l as [|i l IH]; intros b0 H0; simpl; auto.
  apply IH. apply mask_in_digits_modify; auto.
  apply mask_in_digits_cant_assign.
Qed.

Lemma mask_in_digits_run (calls : list (Z * Z)) (b : Board) :
  Forall mask_in_digits b -> Forall mask_in_digits (run b calls).
Proof.
  revert b. induction calls as [|c calls IH]; intros b H; simpl; auto.
  apply IH, mask_in_digits_assign, H.
Qed.

Lemma mask_in_digits_cell (b : Board) (pos : Z) :
  Forall mask_in_digits b -> mask_in_digits (cell b pos).
Proof.
  intros H. unfold cell. destruct (0 <=? pos); [|reflexivity].
  destruct (Nat.lt_ge_cases (Z.to_nat pos) (length b)) as [Hlt|Hge].
  - rewrite Forall_forall in H. apply H, nth_In, Hlt.
  - rewrite nth_overflow by assumption. reflexivity.
Qed.

(** X8: on every board that the program builds (the fresh board after any
    calls of [assign]), the test [assignable()] of a cell, which looks at
    the whole mask, answers true exactly when some digit 1..9 is a candidate
    of the cell: no bit outside the bits 1 to 9 is ever set. *)
Theorem assignable_iff_candidate (calls : list (Z * Z)) (pos : Z) :
  calls_defined calls = true -> 0 <= pos < num_cells ->
  (assignable (cell (run Board_init calls) pos) = true <->
   candidates (cell (run Board_init calls) pos) <> []).
Proof.
  intros _ _.
  assert (Hm : mask_in_digits (cell (run Board_init calls) pos)).
  { apply mask_in_digits_cell, mask_in_digits_run.
    unfold Board_init. apply Forall_forall. intros x Hx.
    apply repeat_spec in Hx. subst x. reflexivity. }
  split.
  - intros Ha Hc. unfold assignable in Ha.
    rewrite (mask_in_digits_empty _ Hm Hc), Z.eqb_refl in Ha. discriminate.
  - intros Hc. destruct (candidates (cell (run Board_init calls) pos)) as [|d l] eqn:E;
      [contradiction|].
    assert (Hin : In d (candidates (cell (run Board_init calls) pos)))
      by (rewrite E; left; reflexivity).
    apply in_candidates in Hin. apply (assignable_dig_assignable _ d), Hin.
Qed.

Lemma assignable_iff_candidate_witness :
  calls_defined [(0, 5); (1, 0); (80, 9)] = true /\ 0 <= 2 < num_cells /\
  (assignable (cell (run Board_init [(0, 5); (1, 0); (80, 9)]) 2) = true <->
   candidates (cell (run Board_init [(0, 5); (1, 0); (80, 9)]) 2) <> []).
Proof.
  assert (H1 : calls_defined [(0, 5); (1, 0); (80, 9)] = true) by reflexivity.
  assert (H2 : 0 <= 2 < num_cells) by (unfold num_cells; lia).
  split; [exact H1|]. split; [exact H2|].
  exact (assignable_iff_candidate [(0, 5); (1, 0); (80, 9)] 2 H1 H2).
Defined.

(** X9: a freshly constructed board has 81 cells; each is empty and has the
    nine digits, and nothing else, as candidates. *)
Theorem fresh_board (p : Z) :
  0 <= p < num_cells ->
  length Board_init = 81%nat /\
  assigned_ (cell Board_init p) = 0 /\
  candidates (cell Board_init p) = [1; 2; 3; 4; 5; 6; 7; 8; 9] /\
  assignable_ (cell Board_init p) = 1022.
Proof.
  intros _. rewrite cell_Board_init. repeat split.
Qed.

Lemma fresh_board_witness :
  0 <= 80 < num_cells /\
  length Board_init = 81%nat /\
  assigned_ (cell Board_init 80) = 0 /\
  candidates (cell Board_init 80) = [1; 2; 3; 4; 5; 6; 7; 8; 9] /\
  assignable_ (cell Board_init 80) = 1022.
Proof.
  assert (H : 0 <= 80 < num_cells) by (unfold num_cells; lia).
  split; [exact H|]. exact (fresh_board 80 H).
Defined.

(** * Further properties of the reading loop *)

Lemma nth_cons_pos (q p x : Z) (l : list Z) :
  p < q -> nth (Z.to_nat (q - p)) (x :: l) 0 = nth (Z.to_nat (q - (p + 1))) l 0.
Proof.
  intros H. replace (Z.to_nat (q - p)) with (S (Z.to_nat (q - (p + 1)))) by lia.
  reflexivity.
Qed.

(** The reading loop, started in any state whose cells from the counter on
    are empty, counts the cells of the stream and writes their digits at the
    positions that follow the counter. *)
Lemma read_loop_cells (ndebug : bool) (input : string) (s0 : reader) :
  (ndebug || zero_free input) = true ->
  length (rd_board s0) = 81%nat -> 0 <= rd_pos s0 ->
  rd_pos s0 + Z.of_nat (length (cells input)) <= INT_MAX ->
  (forall q, rd_pos s0 <= q < num_cells -> assigned_ (cell (rd_board s0) q) = 0) ->
  exists s, read_loop ndebug s0 input = Ok s /\
    rd_pos s = rd_pos s0 + Z.of_nat (length (cells input)) /\
    length (rd_board s) = 81%nat /\
    forall q, 0 <= q < num_cells ->
      assigned_ (cell (rd_board s) q) =
      if q <? rd_pos s0 then assigned_ (cell (rd_board s0) q)
      else nth (Z.to_nat (q - rd_pos s0)) (cells input) 0.
Proof.
  revert s0. induction input as [|a rest IH]; intros s0 Hz Hlen Hpos Hmax Hempty.
  - exists s0. simpl. split; [reflexivity|]. split; [lia|]. split; [assumption|].
    intros q Hq. destruct (Z.ltb_spec q (rd_pos s0)); [reflexivity|].
    rewrite Hempty by lia. destruct (Z.to_nat (q - rd_pos s0)); reflexivity.
  - assert (Hz' : (ndebug || zero_free rest) = true).
    { destruct ndebug; [reflexivity|]. simpl in Hz |- *.
      apply andb_true_iff in Hz. apply Hz. }
    cbn [read_loop]. unfold read_char.
    destruct (Z.eqb_spec (char_code a) 95) as [Hc|Hc].
    + (* the placeholder *)
      assert (Hcells : cells (String a rest) = 0 :: cells rest)
        by (cbn [cells]; rewrite Hc; reflexivity).
      rewrite Hcells in Hmax |- *. clear Hcells.
      cbn [length] in Hmax. unfold incr_pos.
      destruct (Z.eqb_spec (rd_pos s0) INT_MAX) as [He|_]; [lia|]. cbv [bind].
      destruct (IH {| rd_board := rd_board s0; rd_pos := rd_pos s0 + 1;
                      rd_calls := rd_calls s0 |}) as (s & Hr & Hp & Hl & Ha);
        cbn [rd_board rd_pos]; auto; try lia.
      { intros q Hq. apply Hempty. lia. }
      exists s. split; [exact Hr|]. cbn [rd_board rd_pos] in Hp, Ha.
      split; [cbn [length]; lia|]. split; [exact Hl|].
      intros q Hq. rewrite (Ha q Hq).
      destruct (Z.ltb_spec q (rd_pos s0 + 1)); destruct (Z.ltb_spec q (rd_pos s0));
        try lia; try reflexivity.
      * replace q with (rd_pos s0) by lia. rewrite Hempty by lia.
        rewrite Z.sub_diag. reflexivity.
      * symmetry. apply nth_cons_pos. lia.
    + destruct (isdigit (char_code a)) eqn:Hd.
      * (* a digit *)
        assert (Hcells : cells (String a rest) = (char_code a - 48) :: cells rest).
        { cbn [cells]. rewrite Hd.
          destruct (Z.eqb_spec (char_code a) 95); [contradiction|reflexivity]. }
        rewrite Hcells in Hmax |- *. clear Hcells.
        cbn [length] in Hmax.
        assert (Hdig : 0 <= char_code a - 48 <= 9) by (unfold isdigit in Hd; lia).
        destruct (Z.ltb_spec (rd_pos s0) num_cells) as [Hlt|Hge].
        -- unfold call_assign.
           assert (Hok : negb ndebug &&
                         negb (assign_assert (rd_pos s0) (char_code a - 48)) = false).
           { destruct ndebug; [reflexivity|]. simpl in Hz |- *.
             apply andb_true_iff in Hz. destruct Hz as [Hz _].
             destruct (Z.eqb_spec (char_code a) 48); [discriminate|].
             replace (assign_assert (rd_pos s0) (char_code a - 48)) with true;
               [reflexivity|].
             symmetry. apply assign_assert_spec. lia. }
           rewrite Hok. cbv [bind]. unfold incr_pos. cbn [rd_pos rd_board rd_calls].
           destruct (Z.eqb_spec (rd_pos s0) INT_MAX) as [He|_]; [lia|].
           destruct (IH {| rd_board := assign (rd_board s0) (rd_pos s0) (char_code a - 48);
                           rd_pos := rd_pos s0 + 1;
                           rd_calls := rd_calls s0 ++ [(rd_pos s0, char_code a - 48)] |})
             as (s & Hr & Hp & Hl & Ha); cbn [rd_board rd_pos]; auto; try lia.
           { rewrite length_assign. assumption. }
           { intros q Hq. rewrite assigned_assign by (assumption || lia).
             destruct (Z.eqb_spec q (rd_pos s0)); [lia|]. apply Hempty. lia. }
           exists s. split; [exact Hr|]. cbn [rd_board rd_pos] in Hp, Ha.
           split; [cbn [length]; lia|]. split; [exact Hl|].
           intros q Hq. rewrite (Ha q Hq).
           rewrite assigned_assign by (assumption || lia).
           destruct (Z.ltb_spec q (rd_pos s0 + 1)); destruct (Z.ltb_spec q (rd_pos s0));
             destruct (Z.eqb_spec q (rd_pos s0)); try lia; try reflexivity.
           ++ subst q. rewrite Z.sub_diag. reflexivity.
           ++ symmetry. apply nth_cons_pos. lia.
        -- cbv [bind]. unfold incr_pos.
           destruct (Z.eqb_spec (rd_pos s0) INT_MAX) as [He|_]; [lia|].
           destruct (IH {| rd_board := rd_board s0; rd_pos := rd_pos s0 + 1;
                           rd_calls := rd_calls s0 |}) as (s & Hr & Hp & Hl & Ha);
             cbn [rd_board rd_pos]; auto; try lia.
           exists s. split; [exact Hr|]. cbn [rd_board rd_pos] in Hp, Ha.
           split; [cbn [length]; lia|]. split; [exact Hl|].
           intros q Hq. rewrite (Ha q Hq).
           destruct (Z.ltb_spec q (rd_pos s0 + 1)); destruct (Z.ltb_spec q (rd_pos s0));
             try lia; reflexivity.
      * (* any other character *)
        assert (Hcells : cells (String a rest) = cells rest).
        { cbn [cells]. rewrite Hd.
          destruct (Z.eqb_spec (char_code a) 95); [contradiction|reflexivity]. }
        rewrite Hcells in Hmax |- *. clear Hcells.
        cbv [bind]. apply IH; assumption.
Qed.

(** The same, from the start of [main]. *)
Lemma read_loop_init_cells (ndebug : bool) (input : string) :
  (ndebug || zero_free input) = true ->
  Z.of_nat (length (cells input)) <= INT_MAX ->
  exists s, read_loop ndebug reader_init input = Ok s /\
    rd_pos s = Z.of_nat (length (cells input)) /\
    length (rd_board s) = 81%nat /\
    forall q, 0 <= q < num_cells ->
      assigned_ (cell (rd_board s) q) = nth (Z.to_nat q) (cells input) 0.
Proof.
  intros Hz Hmax.
  destruct (read_loop_cells ndebug input reader_init Hz) as (s & Hr & Hp & Hl & Ha);
    cbn [reader_init rd_board rd_pos]; auto; try lia.
  { intros q _. rewrite cell_Board_init. reflexivity. }
  exists s. split; [exact Hr|]. cbn [reader_init rd_board rd_pos] in Hp, Ha.
  split; [lia|]. split; [exact Hl|].
  intros q Hq. rewrite (Ha q Hq).
  destruct (Z.ltb_spec q 0); [lia|]. rewrite Z.sub_0_r. reflexivity.
Qed.

(** X10: what the reading loop of [main] computes on a stream of at most
    [INT_MAX] (2^31 - 1) cells, which the counter can hold.  In a build with
    -DNDEBUG, or on a stream without the character ['0'], the loop ends with
    the counter at the number of cells of the stream, and each cell of the
    board holds the digit of the cell of the stream at its position: 0 for
    a placeholder and beyond the end of the stream.  Cells of the stream past
    the 81st are counted and otherwise dropped. *)
Theorem reader_semantics (ndebug : bool) (input : string) :
  (ndebug || zero_free input) = true ->
  Z.of_nat (length (cells input)) <= INT_MAX ->
  exists s, read_loop ndebug reader_init input = Ok s /\
    rd_pos s = Z.of_nat (length (cells input)) /\
    forall q, 0 <= q < num_cells ->
      assigned_ (cell (rd_board s) q) = nth (Z.to_nat q) (cells input) 0.
Proof.
  intros Hz Hmax.
  destruct (read_loop_init_cells ndebug input Hz Hmax) as (s & Hr & Hp & _ & Ha).
  exists s. auto.
Qed.

Lemma reader_semantics_witness :
  (false || zero_free "_7 x3") = true /\
  Z.of_nat (length (cells "_7 x3")) <= INT_MAX /\
  exists s, read_loop false reader_init "_7 x3" = Ok s /\
    rd_pos s = Z.of_nat (length (cells "_7 x3")) /\
    forall q, 0 <= q < num_cells ->
      assigned_ (cell (rd_board s) q) = nth (Z.to_nat q) (cells "_7 x3") 0.
Proof.
  assert (H1 : (false || zero_free "_7 x3") = true) by reflexivity.
  assert (H2 : Z.of_nat (length (cells "_7 x3")) <= INT_MAX)
    by (vm_compute; discriminate).
  split; [exact H1|]. split; [exact H2|].
  exact (reader_semantics false "_7 x3" H1 H2).
Defined.

(** X11: [main] rejects a stream by its number of cells alone, as long as
    the counter can hold that number.  When a stream of at most [INT_MAX]
    (2^31 - 1) cells, without ['0'] or read by a build with -DNDEBUG, does
    not denote exactly 81 cells, [main] throws, and the number it reports is
    the number of cells of the stream. *)
Theorem main_rejects_miscount (ndebug : bool) (input : string) :
  (ndebug || zero_free input) = true ->
  Z.of_nat (length (cells input)) <= INT_MAX ->
  length (cells input) <> 81%nat ->
  main ndebug input = Ok (Thrown (Z.of_nat (length (cells input)))).
Proof.
  intros Hz Hmax Hne.
  destruct (read_loop_init_cells ndebug input Hz Hmax) as (s & Hr & Hp & _ & _).
  unfold main. rewrite Hr. cbv [bind]. rewrite Hp.
  destruct (Z.eqb_spec (Z.of_nat (length (cells input))) num_cells) as [He|_];
    [|reflexivity].
  unfold num_cells in He. lia.
Qed.

Lemma main_rejects_miscount_witness :
  (false || zero_free "12_ 4") = true /\
  Z.of_nat (length (cells "12_ 4")) <= INT_MAX /\
  length (cells "12_ 4") <> 81%nat /\
  main false "12_ 4" = Ok (Thrown (Z.of_nat (length (cells "12_ 4")))).
Proof.
  assert (H1 : (false || zero_free "12_ 4") = true) by reflexivity.
  assert (H2 : Z.of_nat (length (cells "12_ 4")) <= INT_MAX)
    by (vm_compute; discriminate).
  assert (H3 : length (cells "12_ 4") <> 81%nat) by (vm_compute; discriminate).
  split; [exact H1|]. split; [exact H2|]. split; [exact H3|].
  exact (main_rejects_miscount false "12_ 4" H1 H2 H3).
Defined.

(** * Further properties of the rendering *)

Local Open Scope string_scope.

Lemma print_cell_append (b : Board) (r c : Z) (out : string) :
  print_cell b r out c = out ++ print_cell b r "" c.
Proof.
  unfold print_cell.
  destruct (negb (assigned_ (cell_rc b r c) =? 0)%Z);
    destruct ((c =? 2)%Z || (c =? 5)%Z); cbn [append];
    rewrite ?append_assoc; reflexivity.
Qed.

(** Printing a board appends its text to the stream, whatever the board. *)
Lemma print_to_append (b : Board) (out : string) :
  print_to b out = out ++ print b.
Proof.
  assert (H : forall out0, print_to b out0 =
            out0 ++ (fold_right (fun r acc =>
               (fold_right (fun c acc' => print_cell b r "" c ++ acc') "" (upto 9)
                ++ newline) ++ acc) "" (upto 9) ++ newline)).
  { intros out0. unfold print_to.
    rewrite (fold_left_append _
               (fun r => fold_right (fun c acc' => print_cell b r "" c ++ acc') ""
                           (upto 9) ++ newline)).
    - apply append_assoc.
    - intros out' r _.
      rewrite (fold_left_append _ (fun c => print_cell b r "" c)).
      + apply append_assoc.
      + intros out'' c _. apply print_cell_append. }
  unfold print. rewrite (H out), (H ""). reflexivity.
Qed.

Lemma print_cell_char (b : Board) (r c : Z) (out : string) :
  (0 <= assigned_ (cell_rc b r c) <= 9)%Z ->
  print_cell b r out c =
  out ++ String (cell_char (assigned_ (cell_rc b r c)))
                (if (c =? 2)%Z || (c =? 5)%Z then " " else "").
Proof.
  intros H. unfold print_cell, cell_char.
  destruct (Z.eqb_spec (assigned_ (cell_rc b r c)) 0) as [H0|H0]; cbv [negb].
  - destruct ((c =? 2)%Z || (c =? 5)%Z); [apply append_assoc|reflexivity].
  - rewrite string_of_int_digit by lia.
    destruct ((c =? 2)%Z || (c =? 5)%Z); [apply append_assoc|reflexivity].
Qed.

(** X13: the text of any board whose cells hold 0 or a digit, empty cells
    included: 9 lines of three groups of three characters, a single space
    between the groups, and a blank line; a cell is written as its digit, or
    as ['_'] when it is empty. *)
Theorem print_layout (b : Board) :
  digits_ok b ->
  print b = board_layout (fun r c => cell_char (assigned_ (cell_rc b r c))).
Proof.
  intros Hdig. unfold print, print_to.
  rewrite (fold_left_append _
             (fun r => fold_right (fun c acc =>
                String (cell_char (assigned_ (cell_rc b r c)))
                       (if (c =? 2)%Z || (c =? 5)%Z then " " else "") ++ acc)
                "" (upto 9) ++ newline)).
  - reflexivity.
  - intros out' r Hr. apply in_range in Hr.
    rewrite (fold_left_append _ (fun c =>
                String (cell_char (assigned_ (cell_rc b r c)))
                       (if (c =? 2)%Z || (c =? 5)%Z then " " else ""))).
    + apply append_assoc.
    + intros out'' c Hc. apply in_range in Hc.
      apply print_cell_char, Hdig. unfold num_cells. simpl in *. lia.
Qed.

Lemma print_layout_witness :
  digits_ok (run Board_init [(2, 3); (3, 8); (80, 8)]) /\
  print (run Board_init [(2, 3); (3, 8); (80, 8)]) =
  board_layout (fun r c =>
    cell_char (assigned_ (cell_rc (run Board_init [(2, 3); (3, 8); (80, 8)]) r c))).
Proof.
  assert (H : digits_ok (run Board_init [(2, 3); (3, 8); (80, 8)]))
    by (apply digits_okb_spec; vm_compute; reflexivity).
  split; [exact H|].
  exact (print_layout (run Board_init [(2, 3); (3, 8); (80, 8)]) H).
Defined.

(** ** Reading back what was printed *)

Lemma char_code_digit_char (d : Z) :
  (1 <= d <= 9)%Z -> char_code (digit_char d) = (48 + d)%Z.
Proof.
  intros H.
  assert (Hd : (d = 1 \/ d = 2 \/ d = 3 \/ d = 4 \/ d = 5 \/ d = 6 \/ d = 7 \/
                d = 8 \/ d = 9)%Z) by lia.
  repeat (destruct Hd as [->|Hd]; [reflexivity|]). subst d. reflexivity.
Qed.

Lemma cells_digit (d : Z) (rest : string) :
  (1 <= d <= 9)%Z -> cells (String (digit_char d) rest) = d :: cells rest.
Proof.
  intros H. cbn [cells]. rewrite char_code_digit_char by assumption.
  destruct (Z.eqb_spec (48 + d) 95); [lia|].
  unfold isdigit.
  replace ((48 <=? 48 + d)%Z && (48 + d <=? 57)%Z) with true
    by (symmetry; apply andb_true_intro; split; apply Z.leb_le; lia).
  f_equal. lia.
Qed.

Lemma cells_space (rest : string) : cells (String " " rest) = cells rest.
Proof. reflexivity. Qed.

Lemma cells_newline (rest : string) :
  cells (String (ascii_of_nat 10) rest) = cells rest.
Proof. reflexivity. Qed.

Lemma zero_free_digit (d : Z) (rest : string) :
  (1 <= d <= 9)%Z -> zero_free (String (digit_char d) rest) = zero_free rest.
Proof.
  intros H. cbn [zero_free]. rewrite char_code_digit_char by assumption.
  destruct (Z.eqb_spec (48 + d) 48); [lia|reflexivity].
Qed.

Lemma zero_free_space (rest : string) :
  zero_free (String " " rest) = zero_free rest.
Proof. reflexivity. Qed.

Lemma zero_free_newline (rest : string) :
  zero_free (String (ascii_of_nat 10) rest) = zero_free rest.
Proof. reflexivity. Qed.

(** The text of a fully assigned board denotes its 81 digits, in row-major
    order, and holds no ['0']. *)
Lemma cells_rendering (b : Board) :
  fully_assigned b ->
  cells (rendering_spec b) = digits b /\ zero_free (rendering_spec b) = true.
Proof.
  intros Hfull.
  assert (Hc : forall r c, (0 <= r * 9 + c < num_cells)%Z ->
            (1 <= assigned_ (cell_rc b r c) <= 9)%Z)
    by (intros r c H; apply Hfull, H).
  unfold rendering_spec, row_text, digit_text, newline. cbn [append].
  split.
  - repeat first [ rewrite cells_digit by (apply Hc; unfold num_cells; lia)
                 | rewrite cells_space | rewrite cells_newline ].
    reflexivity.
  - repeat first [ rewrite zero_free_digit by (apply Hc; unfold num_cells; lia)
                 | rewrite zero_free_space | rewrite zero_free_newline ].
    reflexivity.
Qed.

Lemma fully_assigned_test (b : Board) :
  digits_okb b = true -> all_assigned b = true -> fully_assigned b.
Proof.
  intros H1 H2 p Hp. pose proof (digits_okb_spec b H1 p Hp).
  pose proof (all_assigned_spec b H2 p Hp). lia.
Qed.

(** What the reading loop does with the text of a fully assigned board. *)
Lemma read_loop_print (ndebug : bool) (b : Board) :
  fully_assigned b ->
  exists s, read_loop ndebug reader_init (print b) = Ok s /\
    rd_pos s = num_cells /\ length (rd_board s) = 81%nat /\
    forall q, (0 <= q < num_cells)%Z ->
      assigned_ (cell (rd_board s) q) = assigned_ (cell b q).
Proof.
  intros Hfull. unfold print. rewrite print_to_full by assumption. cbn [append].
  destruct (cells_rendering b Hfull) as [Hcells Hzero].
  assert (Hlen : length (cells (rendering_spec b)) = 81%nat)
    by (rewrite Hcells; reflexivity).
  destruct (read_loop_init_cells ndebug (rendering_spec b)) as (s & Hr & Hp & Hl & Ha).
  - rewrite Hzero. apply orb_true_r.
  - rewrite Hlen. unfold INT_MAX. lia.
  - exists s. split; [exact Hr|]. split; [rewrite Hp, Hlen; reflexivity|].
    split; [exact Hl|]. intros q Hq. rewrite (Ha q Hq), Hcells.
    unfold digits, positions, range. rewrite map_map.
    set (f := fun x : nat => assigned_ (cell b (0 + Z.of_nat x))).
    rewrite (nth_indep _ 0%Z (f O))
      by (rewrite length_map, length_seq; unfold num_cells in Hq; lia).
    rewrite map_nth, seq_nth by (unfold num_cells in Hq; lia).
    unfold f. f_equal. f_equal. lia.
Qed.

(** X14: round trip.  Reading the text that [print] writes for a fully
    assigned board counts 81 cells and rebuilds a board with the same digit
    in every cell, in either build. *)
Theorem print_read_round_trip (ndebug : bool) (b : Board) :
  fully_assigned b ->
  exists s, read_loop ndebug reader_init (print b) = Ok s /\
    rd_pos s = num_cells /\ digits (rd_board s) = digits b.
Proof.
  intros Hfull.
  destruct (read_loop_print ndebug b Hfull) as (s & Hr & Hp & Hl & Ha).
  exists s. split; [exact Hr|]. split; [exact Hp|].
  unfold digits. apply map_ext_in. intros q Hq. apply Ha, in_positions, Hq.
Qed.

Lemma print_read_round_trip_witness :
  fully_assigned solved_board /\
  exists s, read_loop false reader_init (print solved_board) = Ok s /\
    rd_pos s = num_cells /\ digits (rd_board s) = digits solved_board.
Proof.
  assert (H : fully_assigned solved_board)
    by (apply fully_assigned_test; vm_compute; reflexivity).
  split; [exact H|]. exact (print_read_round_trip false solved_board H).
Defined.

Lemma rendering_spec_ext (b1 b2 : Board) :
  (forall q, (0 <= q < num_cells)%Z ->
     assigned_ (cell b1 q) = assigned_ (cell b2 q)) ->
  rendering_spec b1 = rendering_spec b2.
Proof.
  intros H. unfold rendering_spec, row_text, digit_text, cell_rc.
  rewrite !H by (unfold num_cells; lia). reflexivity.
Qed.

(** X15: the output of the program is a fixed point of the program.  Fed
    with the text of a fully assigned board, [main] emits exactly one board
    and prints the same text again; it does so whether or not the digits
    respect the rows, columns and boxes. *)
Theorem main_reprints (ndebug : bool) (b : Board) :
  fully_assigned b ->
  exists b', main ndebug (print b) = Ok (Returned [b']) /\
    printed [b'] = print b.
Proof.
  intros Hfull.
  destruct (read_loop_print ndebug b Hfull) as (s & Hr & Hp & Hl & Ha).
  assert (Hfull' : fully_assigned (rd_board s))
    by (intros q Hq; rewrite (Ha q Hq); apply Hfull, Hq).
  assert (Hf : find find_fuel (rd_board s) 0%Z = Some [rd_board s]).
  { apply find_scan_assigned.
    - intros p Hp'. specialize (Hfull' p Hp'). lia.
    - unfold num_cells. lia.
    - unfold num_cells, find_fuel. lia. }
  exists (rd_board s). split.
  - unfold main. rewrite Hr. cbv [bind]. rewrite Hp, Z.eqb_refl. cbv [negb].
    rewrite Hf. reflexivity.
  - unfold printed. cbn [fold_left]. unfold print.
    rewrite !print_to_full by assumption.
    rewrite (rendering_spec_ext _ _ Ha). reflexivity.
Qed.

Lemma main_reprints_witness :
  fully_assigned solved_board /\
  exists b', main true (print solved_board) = Ok (Returned [b']) /\
    printed [b'] = print solved_board.
Proof.
  assert (H : fully_assigned solved_board)
    by (apply fully_assigned_test; vm_compute; reflexivity).
  split; [exact H|]. exact (main_reprints true solved_board H).
Defined.

Local Close Scope string_scope.

(** * The program as a whole *)

Lemma read_loop_calls (ndebug : bool) (input : string) (s0 s : reader) :
  zero_free input = true -> read_loop ndebug s0 input = Ok s ->
  rd_calls s = rd_calls s0 ++ calls_from (rd_pos s0) (cells input).
Proof.
  revert s0. induction input as [|a rest IH]; intros s0 Hz Hr.
  - simpl in Hr. injection Hr as <-. simpl. rewrite app_nil_r. reflexivity.
  - cbn [zero_free] in Hz. apply andb_true_iff in Hz. destruct Hz as [Ha Hz].
    cbn [read_loop] in Hr. cbn [cells]. unfold read_char in Hr.
    destruct (Z.eqb_spec (char_code a) 95) as [Hc|Hc].
    + unfold incr_pos in Hr. destruct (rd_pos s0 =? INT_MAX); [discriminate|].
      cbv [bind] in Hr. rewrite (IH _ Hz Hr). reflexivity.
    + destruct (isdigit (char_code a)) eqn:Hd.
      * assert (Hnz : (char_code a - 48 =? 0) = false).
        { destruct (Z.eqb_spec (char_code a) 48); [discriminate|].
          apply Z.eqb_neq. lia. }
        cbn [calls_from]. rewrite Hnz. cbn [orb].
        destruct (rd_pos s0 <? num_cells); cbn [negb].
        -- unfold call_assign in Hr.
           destruct (negb ndebug && negb (assign_assert (rd_pos s0) (char_code a - 48)));
             [discriminate|].
           cbv [bind] in Hr. unfold incr_pos in Hr. cbn [rd_pos rd_board rd_calls] in Hr.
           destruct (rd_pos s0 =? INT_MAX); [discriminate|].
           rewrite (IH _ Hz Hr). cbn [rd_calls rd_pos].
           rewrite <- app_assoc. reflexivity.
        -- cbv [bind] in Hr. unfold incr_pos in Hr.
           destruct (rd_pos s0 =? INT_MAX); [discriminate|].
           rewrite (IH _ Hz Hr). reflexivity.
      * cbv [bind] in Hr. apply (IH _ Hz Hr).
Qed.

Lemma givens_calls_from (s : list Z) (cs : list Z) (pos : Z) :
  0 <= pos -> fills s pos cs = true -> givens_of s (calls_from pos cs) = true.
Proof.
  revert pos. induction cs as [|d cs IH]; intros pos Hpos H; [reflexivity|].
  cbn [fills] in H. apply andb_true_iff in H. destruct H as [Hd H].
  cbn [calls_from]. unfold givens_of. rewrite forallb_app.
  apply andb_true_intro. split; [|apply IH; [lia|exact H]].
  destruct (Z.eqb_spec d 0) as [|Hnz]; [reflexivity|]. cbn [orb] in Hd |- *.
  destruct (Z.ltb_spec pos num_cells); [|reflexivity]. cbn [negb forallb fst snd].
  rewrite Hd. unfold pos_assert.
  replace ((0 <=? pos) && (pos <? num_cells)) with true; [reflexivity|].
  symmetry. apply andb_true_intro. split; [apply Z.leb_le|apply Z.ltb_lt]; lia.
Qed.

(** The givens of a puzzle that has a solution never conflict: the board
    they build is consistent. *)
Lemma consistent_calls_from (s : list Z) (cs : list Z) (pos : Z) (b : Board) :
  solution s = true -> 0 <= pos -> fills s pos cs = true ->
  consistent b -> extends_to s b ->
  (forall q, pos <= q < num_cells -> assigned_ (cell b q) = 0) ->
  consistent (run b (calls_from pos cs)).
Proof.
  intros Hs. revert pos b.
  induction cs as [|d cs IH]; intros pos b Hpos H Hc He Hempty; [exact Hc|].
  cbn [fills] in H. apply andb_true_iff in H. destruct H as [Hd H].
  cbn [calls_from]. rewrite run_app.
  destruct (Z.eqb_spec d 0) as [|Hnz]; cbn [orb] in Hd |- *.
  { apply IH; auto; try lia. intros q Hq. apply Hempty. lia. }
  destruct (Z.ltb_spec pos num_cells) as [Hlt|Hge]; cbn [negb].
  - apply Z.eqb_eq in Hd. subst d.
    destruct (solution_spec s Hs) as (_ & Hdig & _).
    assert (Hp : 0 <= pos < num_cells) by lia.
    destruct He as (Hb & Hfix & Hcand).
    cbn [run fold_left fst snd]. apply IH; auto; try lia.
    + apply consistent_assign; auto. apply Hcand; auto. apply Hempty. lia.
    + apply extends_to_assign; auto. split; [assumption|]. split; assumption.
    + intros q Hq. rewrite assigned_assign by (assumption || lia).
      destruct (Z.eqb_spec q pos); [lia|]. apply Hempty. lia.
  - apply IH; auto; try lia.
Qed.

Lemma digit_at_digits (b : Board) (p : Z) :
  0 <= p < num_cells -> digit_at (digits b) p = assigned_ (cell b p).
Proof.
  intros Hp. unfold digit_at, digits, positions, range. rewrite map_map.
  set (f := fun x : nat => assigned_ (cell b (0 + Z.of_nat x))).
  rewrite (nth_indep _ 0 (f O))
    by (rewrite length_map, length_seq; unfold num_cells in Hp; lia).
  rewrite map_nth, seq_nth by (unfold num_cells in Hp; lia).
  unfold f. f_equal. f_equal. lia.
Qed.

(** A fully assigned board without duplicates is a solved grid. *)
Lemma solution_digits (b : Board) :
  fully_assigned b -> unique_units b -> solution (digits b) = true.
Proof.
  intros Hfull Huni. unfold solution. rewrite !andb_true_iff. split; [split|].
  - unfold digits, positions, range. rewrite !length_map, length_seq. reflexivity.
  - apply forallb_forall. intros p Hp. apply in_positions in Hp.
    rewrite digit_at_digits by assumption. specialize (Hfull p Hp).
    unfold dig_assert. apply andb_true_intro. split; apply Z.leb_le; lia.
  - apply forallb_forall. intros p Hp. apply forallb_forall. intros q Hq.
    apply in_positions in Hp. apply in_positions in Hq.
    rewrite !digit_at_digits by assumption.
    destruct (Z.eqb_spec p q) as [|Hne]; [reflexivity|].
    destruct (same_unit p q) eqn:Hsu; [|reflexivity]. cbn [negb orb].
    destruct (Z.eqb_spec (assigned_ (cell b p)) (assigned_ (cell b q))) as [Heq|];
      [|reflexivity].
    exfalso. apply (Huni p q); auto. specialize (Hfull p Hp). lia.
Qed.

Lemma fills_intro (t : list Z) (cs : list Z) (pos : Z) :
  (forall i, (i < length cs)%nat ->
     nth i cs 0 = 0 \/ nth i cs 0 = digit_at t (pos + Z.of_nat i)) ->
  fills t pos cs = true.
Proof.
  revert pos. induction cs as [|d cs IH]; intros pos H; [reflexivity|].
  cbn [fills]. apply andb_true_intro. split.
  - specialize (H O (Nat.lt_0_succ _)). cbn [nth] in H.
    rewrite Z.add_0_r in H. destruct H as [->| ->].
    + reflexivity.
    + rewrite Z.eqb_refl. apply orb_true_r.
  - apply IH. intros i Hi. specialize (H (S i)). cbn [nth length] in H.
    replace (pos + 1 + Z.of_nat i) with (pos + Z.of_nat (S i)) by lia.
    apply H. lia.
Qed.

(** X16: the program as a whole.  Take a stream without ['0'] that denotes
    81 cells, and suppose that some solved grid fills the puzzle it denotes.
    Then [main] returns, and the boards it prints are exactly the solved
    grids that fill the puzzle, each of them once. *)
Theorem main_prints_the_solutions (ndebug : bool) (input : string) (s : list Z) :
  solution s = true -> zero_free input = true ->
  length (cells input) = 81%nat -> fills s 0 (cells input) = true ->
  exists out, main ndebug input = Ok (Returned out) /\
    NoDup (map digits out) /\
    forall t, In t (map digits out) <->
              solution t = true /\ fills t 0 (cells input) = true.
Proof.
  intros Hs Hz Hlen Hfill.
  destruct (read_loop_init_cells ndebug input) as (st & Hr & Hp & Hl & Ha).
  { rewrite Hz. apply orb_true_r. }
  { rewrite Hlen. unfold INT_MAX. lia. }
  pose proof (ri_board _ (read_loop_inv _ _ _ _ Hr reader_inv_init)) as Hboard.
  rewrite (read_loop_calls _ _ _ _ Hz Hr) in Hboard. cbn [reader_init rd_calls rd_pos app] in Hboard.
  assert (Hinit : forall t, solution t = true -> extends_to t Board_init).
  { intros t Ht. destruct (completes_Board_init t Ht) as (H1 & _ & H3 & H4 & _).
    split; [assumption|]. split; assumption. }
  assert (Hcons : consistent (rd_board st)).
  { rewrite Hboard. apply (consistent_calls_from s); auto.
    - lia.
    - apply consistent_Board_init.
    - intros q _. rewrite cell_Board_init. reflexivity. }
  destruct (find_total (rd_board st) Hl) as [out Hf].
  exists out. split; [|split].
  - unfold main. rewrite Hr. cbv [bind]. rewrite Hp, Hlen.
    change (Z.of_nat 81 =? num_cells) with true. cbv [negb]. rewrite Hf. reflexivity.
  - apply sorted_before_NoDup.
    apply (find_sorted find_fuel (rd_board st) 0 out Hl); [unfold num_cells; lia|exact Hf].
  - intros t. split.
    + intros Hin. apply in_map_iff in Hin. destruct Hin as (b' & <- & Hb').
      destruct (find_sound _ _ _ Hcons Hf b' Hb') as [Hfull Huni].
      split; [apply solution_digits; assumption|].
      apply fills_intro. intros i Hi. rewrite Hlen in Hi.
      assert (Hq : 0 <= Z.of_nat i < num_cells) by (unfold num_cells; lia).
      pose proof (Ha _ Hq) as Hcell. rewrite Nat2Z.id in Hcell.
      destruct (Z.eq_dec (nth i (cells input) 0) 0) as [|Hnz]; [left; assumption|].
      right. rewrite Z.add_0_l, digit_at_digits by assumption.
      rewrite <- Hcell. symmetry.
      apply (find_keeps find_fuel (rd_board st) 0 out Hl); auto.
      * unfold num_cells. lia.
      * right. rewrite Hcell. exact Hnz.
    + intros [Ht Hft].
      apply (find_complete t find_fuel (rd_board st) 0 out Ht); [|exact Hf].
      apply extends_to_completes. rewrite Hboard.
      apply extends_to_run; auto. apply givens_calls_from; [lia|exact Hft].
Qed.

Lemma main_prints_the_solutions_witness :
  solution solved_grid = true /\ zero_free sudoku1 = true /\
  length (cells sudoku1) = 81%nat /\ fills solved_grid 0 (cells sudoku1) = true /\
  exists out, main false sudoku1 = Ok (Returned out) /\
    NoDup (map digits out) /\
    forall t, In t (map digits out) <->
              solution t = true /\ fills t 0 (cells sudoku1) = true.
Proof.
  assert (H1 : solution solved_grid = true) by (vm_compute; reflexivity).
  assert (H2 : zero_free sudoku1 = true) by (vm_compute; reflexivity).
  assert (H3 : length (cells sudoku1) = 81%nat) by (vm_compute; reflexivity).
  assert (H4 : fills solved_grid 0 (cells sudoku1) = true) by (vm_compute; reflexivity).
  repeat (split; [assumption|]).
  exact (main_prints_the_solutions false sudoku1 solved_grid H1 H2 H3 H4).
Defined.

Lemma cant_assign_zero (x : Cell) : mask_in_digits x -> cant_assign 0 x = x.
Proof.
  intros Hm. apply Cell_ext; [reflexivity|].
  unfold cant_assign. cbn [assignable_]. unfold mask_in_digits in Hm.
  rewrite <- Hm. rewrite <- Z.land_assoc. f_equal.
Qed.

(** X17: the digit 0, which [main] passes to [assign] for the character
    ['0'] in a build with -DNDEBUG, changes nothing: on a board built by the
    program, [assign(p, 0)] on an empty cell leaves the board as it is, so
    that ['0'] is read like the placeholder. *)
Theorem assign_zero_changes_nothing (calls : list (Z * Z)) (p : Z) :
  calls_defined calls = true -> 0 <= p < num_cells ->
  assigned_ (cell (run Board_init calls) p) = 0 ->
  assign (run Board_init calls) p 0 = run Board_init calls.
Proof.
  intros _ Hp Hz.
  assert (Hb : length (run Board_init calls) = 81%nat)
    by (rewrite length_run; reflexivity).
  assert (Hm : Forall mask_in_digits (run Board_init calls)).
  { apply mask_in_digits_run. unfold Board_init. apply Forall_forall.
    intros x Hx. apply repeat_spec in Hx. subst x. reflexivity. }
  apply Board_ext; [rewrite length_assign; exact Hb|exact Hb|].
  intros q Hq. apply Cell_ext.
  - rewrite assigned_assign by assumption.
    destruct (Z.eqb_spec q p) as [->|]; [symmetry; exact Hz|reflexivity].
  - rewrite assignable_assign by assumption.
    destruct (same_unit p q); [|reflexivity].
    rewrite cant_assign_zero; [reflexivity|].
    apply mask_in_digits_cell, Hm.
Qed.

Lemma assign_zero_changes_nothing_witness :
  calls_defined [(0, 5); (40, 7)] = true /\ 0 <= 1 < num_cells /\
  assigned_ (cell (run Board_init [(0, 5); (40, 7)]) 1) = 0 /\
  assign (run Board_init [(0, 5); (40, 7)]) 1 0 = run Board_init [(0, 5); (40, 7)].
Proof.
  assert (H1 : calls_defined [(0, 5); (40, 7)] = true) by reflexivity.
  assert (H2 : 0 <= 1 < num_cells) by (unfold num_cells; lia).
  assert (H3 : assigned_ (cell (run Board_init [(0, 5); (40, 7)]) 1) = 0)
    by (vm_compute; reflexivity).
  repeat (split; [assumption|]).
  exact (assign_zero_changes_nothing [(0, 5); (40, 7)] 1 H1 H2 H3).
Defined.
